(** * PDF structure extractor: heading classifier, title inference and
      outline builder of [extractor.py], with their specification.

    The development follows the class [PDFStructureExtractor]:
    - [Text]: Python [str] operations used by the extractor ([strip],
      [split], [lower], [islower], [isupper], [len]);
    - [Re]: the fragment of [re] needed by the nine heading patterns and
      the meaning of [re.match];
    - [Extractor]: [is_heading], [extract_title], [extract_outline] and
      [extract_structure], written with the exceptions they can raise;
    - the properties of the specification, one theorem each. *)

From Stdlib Require Import Ascii String QArith Lqa.
From stdpp Require Import base decidable option list sorting gmap strings.

Set Default Proof Using "Type".
Local Open Scope nat_scope.
Local Open Scope list_scope.

(** ** Python strings

    A Python [str] is a sequence of code points.  The model keeps the code
    points below 256 (ASCII and Latin-1), for which the character classes
    of the Unicode database used by CPython are written out below; on this
    range [str.lower] is a character-wise map. *)

Module Text.

Definition str := list ascii.

(** [py "abc"] is the Python literal ["abc"]. *)
Definition py (s : string) : str := list_ascii_of_string s.

Definition code (c : ascii) : N := N_of_ascii c.

Definition in_range (lo hi : N) (c : ascii) : bool :=
  ((lo <=? code c) && (code c <=? hi))%N.

(** [Py_UNICODE_ISSPACE]: TAB..CR, FS..US, SPACE, NEL and NBSP. *)
Definition isspace (c : ascii) : bool :=
  in_range 9 13 c || in_range 28 32 c || (code c =? 133)%N || (code c =? 160)%N.

(** Decimal digits (category Nd), the class [\d] of [re]. *)
Definition isdecimal (c : ascii) : bool := in_range 48 57 c.

(** [Py_UNICODE_ISUPPER]: A-Z and the Latin-1 capitals. *)
Definition char_isupper (c : ascii) : bool :=
  in_range 65 90 c || in_range 192 214 c || in_range 216 222 c.

(** [Py_UNICODE_ISLOWER]: a-z, the Latin-1 small letters, and the three
    code points with the Lowercase property (U+00AA, U+00B5, U+00BA). *)
Definition char_islower (c : ascii) : bool :=
  in_range 97 122 c || (code c =? 170)%N || (code c =? 181)%N ||
  (code c =? 186)%N || in_range 223 246 c || in_range 248 255 c.

Definition char_lower (c : ascii) : ascii :=
  if char_isupper c then ascii_of_N (code c + 32) else c.

(** [str.lower()] *)
Definition lower (s : str) : str := map char_lower s.

(** [str.lstrip()], [str.rstrip()], [str.strip()] without argument. *)
Fixpoint lstrip (s : str) : str :=
  match s with
  | c :: s' => if isspace c then lstrip s' else s
  | [] => []
  end.

Definition rstrip (s : str) : str := rev (lstrip (rev s)).

Definition strip (s : str) : str := rstrip (lstrip s).

(** [str.split()] without argument: the maximal runs of non-whitespace
    characters.  [cur] is the word being read. *)
Fixpoint split_from (cur : str) (s : str) : list str :=
  match s with
  | [] => match cur with [] => [] | _ => [cur] end
  | c :: s' =>
      if isspace c
      then match cur with
           | [] => split_from [] s'
           | _ => cur :: split_from [] s'
           end
      else split_from (cur ++ [c]) s'
  end.

Definition split (s : str) : list str := split_from [] s.

(** [str.islower()] as [unicode_islower_impl] computes it: a cased
    character of the other case (there are no titlecase characters below
    256) answers False at once, and otherwise the answer is whether a
    cased character was met. *)
Fixpoint islower_from (cased : bool) (s : str) : bool :=
  match s with
  | [] => cased
  | c :: s' =>
      if char_isupper c then false
      else islower_from (cased || char_islower c) s'
  end.

Definition islower (s : str) : bool := islower_from false s.

(** [str.isupper()], likewise. *)
Fixpoint isupper_from (cased : bool) (s : str) : bool :=
  match s with
  | [] => cased
  | c :: s' =>
      if char_islower c then false
      else isupper_from (cased || char_isupper c) s'
  end.

Definition isupper (s : str) : bool := isupper_from false s.

(** [" ".join(parts)] *)
Fixpoint join_space (parts : list str) : str :=
  match parts with
  | [] => []
  | [p] => p
  | p :: rest => p ++ " "%char :: join_space rest
  end.

End Text.

Import Text.

(** ** Regular expressions

    The patterns of the extractor are built from character sets, one
    character or at least [n] of them, sequence and alternation.
    [re.match] tries the pattern at position 0 only, where the leading [^]
    of every pattern always holds, so [^] needs no constructor. *)

Module Re.

Inductive cset : Type :=
  | Lit (c : ascii)                (* a literal character *)
  | Range (lo hi : ascii)          (* [lo-hi] *)
  | Digit                          (* \d *)
  | White                          (* \s *)
  | Union (a b : cset).            (* members of one bracket *)

Fixpoint mem (cs : cset) (c : ascii) : bool :=
  match cs with
  | Lit a => bool_decide (c = a)
  | Range lo hi => in_range (code lo) (code hi) c
  | Digit => isdecimal c
  | White => isspace c
  | Union a b => mem a c || mem b c
  end.

Inductive regex : Type :=
  | One (cs : cset)                  (* one character of the set *)
  | AtLeast (n : nat) (cs : cset)    (* cs{n,} ; + is {1,} *)
  | Seq (r1 r2 : regex)
  | Alt (r1 r2 : regex).

(** [AtLeast n cs] followed by the continuation [k]: the engine may stop
    after any number of characters from [n] on. *)
Fixpoint many (cs : cset) (k : str -> bool) (n : nat) (s : str) : bool :=
  match s with
  | c :: s' =>
      (mem cs c && many cs k (pred n) s') || (bool_decide (n = 0) && k s)
  | [] => bool_decide (n = 0) && k []
  end.

(** Backtracking matcher: [run r s k] holds when [r] matches a prefix of
    [s] whose remainder satisfies [k]. *)
Fixpoint run (r : regex) (s : str) (k : str -> bool) : bool :=
  match r with
  | One cs => match s with c :: s' => mem cs c && k s' | [] => false end
  | AtLeast n cs => many cs k n s
  | Seq r1 r2 => run r1 s (fun s' => run r2 s' k)
  | Alt r1 r2 => run r1 s k || run r2 s k
  end.

(** [re.match(pat, text)] as a truth value. *)
Definition re_match (r : regex) (s : str) : bool := run r s (fun _ => true).

(** The words of a pattern. *)
Inductive lang : regex -> str -> Prop :=
  | lang_One cs c : mem cs c = true -> lang (One cs) [c]
  | lang_AtLeast n cs w :
      n <= length w -> Forall (fun c => mem cs c = true) w ->
      lang (AtLeast n cs) w
  | lang_Seq r1 r2 w1 w2 : lang r1 w1 -> lang r2 w2 -> lang (Seq r1 r2) (w1 ++ w2)
  | lang_Alt_l r1 r2 w : lang r1 w -> lang (Alt r1 r2) w
  | lang_Alt_r r1 r2 w : lang r2 w -> lang (Alt r1 r2) w.

(** A literal word such as [Chapter], followed by [r]. *)
Fixpoint literal (cs : str) (r : regex) : regex :=
  match cs with
  | [] => r
  | c :: cs' => Seq (One (Lit c)) (literal cs' r)
  end.

End Re.

Import Re.

(** ** Exceptions

    Only subclasses of [Exception] are modelled: these are what the
    [except Exception] clause of [extract_structure] catches. *)

Inductive exn : Type :=
  | KeyError (key : string)     (* a missing dictionary key *)
  | IndexError                  (* a page index out of range *)
  | FitzError (msg : string).   (* raised by the PDF library *)

Inductive result (A : Type) : Type :=
  | Ok (a : A)
  | Raise (e : exn).
Arguments Ok {A} a.
Arguments Raise {A} e.

Global Instance result_ret : MRet result := fun A a => Ok a.
Global Instance result_bind : MBind result := fun A B f m =>
  match m with
  | Ok a => f a
  | Raise e => Raise e
  end.

(** [for x in xs: body], threading the variables the body assigns; an
    exception leaves the loop. *)
Fixpoint for_each {A St} (xs : list A) (body : A -> St -> result St) (st : St)
  : result St :=
  match xs with
  | [] => Ok st
  | x :: xs' => st' ← body x st; for_each xs' body st'
  end.

(** [d[key]] on a dictionary that may lack [key]. *)
Definition getitem {A} (key : string) (field : option A) : result A :=
  match field with
  | Some a => Ok a
  | None => Raise (KeyError key)
  end.

(** ** The text dictionary of a page

    [page.get_text("dict")["blocks"]] is a list of blocks; an image block
    has no ["lines"]; a line holds ["spans"], a span its ["text"] and
    ["size"].  Font sizes are finite floats; negating and comparing them
    is exact, so they are modelled as rationals. *)

Record span := { span_text : str; span_size : Q }.
Record line := { line_spans : option (list span) }.
Record block := { block_lines : option (list line) }.
Record page := { get_text_blocks : result (list block) }.
Abbreviation document := (list page).

Definition page_count (doc : document) : nat := length doc.

(** [doc[page_num]] *)
Definition load_page (doc : document) (page_num : nat) : result page :=
  match doc !! page_num with
  | Some pg => Ok pg
  | None => Raise IndexError
  end.

(** ** The extractor *)

Module Extractor.

Inductive level : Type := H1 | H2 | H3.

Definition upper_AZ : cset := Range "A" "Z".
Definition roman : cset :=
  Union (Lit "I") (Union (Lit "V") (Union (Lit "X") (Union (Lit "L")
    (Union (Lit "C") (Union (Lit "D") (Lit "M")))))).

(** [^([A-Z][A-Z\s]{4,}|[IVXLCDM]+\s|[1-9]\s)] *)
Definition h1_caps_roman_digit : regex :=
  Alt (Seq (One upper_AZ) (AtLeast 4 (Union upper_AZ White)))
    (Alt (Seq (AtLeast 1 roman) (One White))
         (Seq (One (Range "1" "9")) (One White))).

(** [^Chapter\s+\d+] *)
Definition h1_chapter : regex :=
  literal (py "Chapter") (Seq (AtLeast 1 White) (AtLeast 1 Digit)).

(** [^Appendix\s+[A-Z0-9]+] *)
Definition h1_appendix : regex :=
  literal (py "Appendix")
    (Seq (AtLeast 1 White) (AtLeast 1 (Union upper_AZ (Range "0" "9")))).

Definition h1_patterns : list regex :=
  [ h1_caps_roman_digit; h1_chapter; h1_appendix ].

(** [^\d+\.\d+] *)
Definition h2_numeric : regex :=
  Seq (AtLeast 1 Digit) (Seq (One (Lit ".")) (AtLeast 1 Digit)).

(** [^\([a-z]\)] *)
Definition h2_paren_letter : regex :=
  Seq (One (Lit "(")) (Seq (One (Range "a" "z")) (One (Lit ")"))).

(** [^[a-z]\)] *)
Definition h2_letter : regex := Seq (One (Range "a" "z")) (One (Lit ")")).

Definition h2_patterns : list regex :=
  [ h2_numeric; h2_paren_letter; h2_letter ].

(** [^\d+\.\d+\.\d+] *)
Definition h3_numeric : regex :=
  Seq (AtLeast 1 Digit) (Seq (One (Lit "."))
    (Seq (AtLeast 1 Digit) (Seq (One (Lit ".")) (AtLeast 1 Digit)))).

(** [^\([0-9]+\)] *)
Definition h3_paren : regex :=
  Seq (One (Lit "(")) (Seq (AtLeast 1 (Range "0" "9")) (One (Lit ")"))).

Definition h3_patterns : list regex := [ h3_numeric; h3_paren ].

Definition heading_keywords : gset str :=
  list_to_set (map py
    [ "introduction"; "summary"; "conclusion"; "overview"; "abstract";
      "references"; "appendix"; "contents"; "table of contents";
      "acknowledgements" ]%string).

(** [any(re.match(pat, text) for pat in pats)], the test of each of the
    three [for pat in ...] loops. *)
Definition any_match (pats : list regex) (text : str) : bool :=
  existsb (fun pat => re_match pat text) pats.

Definition is_heading (text : str) : option level :=
  let text := strip text in
  if (20 <? length (split text)) || (150 <? length text) then None
  else if any_match h3_patterns text then Some H3
  else if any_match h2_patterns text then Some H2
  else if any_match h1_patterns text then Some H1
  else if bool_decide (lower text ∈ heading_keywords) || isupper text
       then Some H1
  else None.

(** *** extract_title *)

Definition candidate : Type := str * Q * nat.
Definition cand_text (c : candidate) : str := c.1.1.
Definition cand_size (c : candidate) : Q := c.1.2.
Definition cand_page (c : candidate) : nat := c.2.

(** Comparison of the sort keys [(-x[1], x[2])]: tuples compare on the
    first component where they differ. *)
Definition Qltb (a b : Q) : bool := negb (Qle_bool b a).

Definition sort_key (c : candidate) : Q * nat := (- cand_size c, cand_page c)%Q.

Definition key_ltb (a b : Q * nat) : bool :=
  if Qeq_bool a.1 b.1 then a.2 <? b.2 else Qltb a.1 b.1.

(** [list.sort(key=...)] is stable: an element goes before the elements
    that followed it in the list unless one of these is strictly smaller. *)
Fixpoint sort_insert (x : candidate) (l : list candidate) : list candidate :=
  match l with
  | [] => [x]
  | y :: l' =>
      if key_ltb (sort_key y) (sort_key x) then y :: sort_insert x l'
      else x :: l
  end.

Definition sort (l : list candidate) : list candidate :=
  foldr sort_insert [] l.

Definition title_span (page_num : nat) (s : span) (candidates : list candidate)
  : result (list candidate) :=
  let txt := strip (span_text s) in
  if (10 <? length txt) && (length txt <? 150) && negb (islower txt)
  then Ok (candidates ++ [(txt, span_size s, page_num)])
  else Ok candidates.

Definition title_line (page_num : nat) (l : line) (candidates : list candidate)
  : result (list candidate) :=
  spans ← getitem "spans" (line_spans l);
  for_each spans (title_span page_num) candidates.

Definition title_block (page_num : nat) (b : block) (candidates : list candidate)
  : result (list candidate) :=
  match block_lines b with
  | None => Ok candidates                       (* continue *)
  | Some lines => for_each lines (title_line page_num) candidates
  end.

Definition title_page (doc : document) (page_num : nat)
    (candidates : list candidate) : result (list candidate) :=
  pg ← load_page doc page_num;
  blocks ← get_text_blocks pg;
  for_each blocks (title_block page_num) candidates.

(** The list [candidates] when the loops are over. *)
Definition title_candidates (doc : document) : result (list candidate) :=
  for_each (seq 0 (min 2 (page_count doc))) (title_page doc) [].

Definition extract_title (doc : document) : result str :=
  candidates ← title_candidates doc;
  match sort candidates with
  | [] => Ok []
  | c :: _ => Ok (cand_text c)
  end.

(** *** extract_outline *)

Record entry := { entry_level : level; entry_text : str; entry_page : nat }.

Definition outline_state : Type := list entry * gset (str * nat).

(** [" ".join([span["text"].strip() for span in line.get("spans", [])]).strip()] *)
Definition full_line_of (l : line) : str :=
  strip (join_space
    (map (fun s => strip (span_text s)) (default [] (line_spans l)))).

(** The body of the innermost loop, on the joined text of a line. *)
Definition outline_text (page_num : nat) (full_line : str) (st : outline_state)
  : outline_state :=
  match full_line with
  | [] => st                                     (* continue *)
  | _ =>
      let level := is_heading full_line in
      let key := (lower full_line, page_num) in
      match level with
      | Some lv =>
          if bool_decide (key ∉ st.2)
          then (st.1 ++ [ {| entry_level := lv; entry_text := full_line;
                             entry_page := page_num + 1 |} ],
                {[ key ]} ∪ st.2)
          else st
      | None => st
      end
  end.

Definition outline_line (page_num : nat) (l : line) (st : outline_state)
  : result outline_state :=
  Ok (outline_text page_num (full_line_of l) st).

Definition outline_block (page_num : nat) (b : block) (st : outline_state)
  : result outline_state :=
  for_each (default [] (block_lines b)) (outline_line page_num) st.

Definition outline_page (doc : document) (page_num : nat) (st : outline_state)
  : result outline_state :=
  pg ← load_page doc page_num;
  blocks ← get_text_blocks pg;
  for_each blocks (outline_block page_num) st.

Definition extract_outline (doc : document) : result (list entry) :=
  st ← for_each (seq 0 (page_count doc)) (outline_page doc) ([], ∅);
  Ok st.1.

(** *** extract_structure *)

(** [Path.name] is the last component of the path and [Path.stem] that
    name without its last suffix: the part before the last dot, unless
    that dot starts or ends the name (pathlib up to Python 3.12; later
    versions differ on names that end with a dot only). *)
Record Path := { path_dir : str; path_name : str }.

Fixpoint rfind_dot (s : str) : option nat :=
  match s with
  | [] => None
  | c :: s' =>
      match rfind_dot s' with
      | Some i => Some (1 + i)
      | None => if bool_decide (c = "."%char) then Some 0 else None
      end
  end.

Definition path_stem (p : Path) : str :=
  let name := path_name p in
  match rfind_dot name with
  | Some i => if (0 <? i) && (i <? length name - 1) then take i name else name
  | None => name
  end.

Record structure := { title : str; outline : list entry }.

Section Structure.

(** [fitz.open], the text acquisition adapter. *)
Variable fitz_open : Path -> result document.

Definition try_extract (pdf_path : Path) : result structure :=
  doc ← fitz_open pdf_path;
  title ← extract_title doc;
  outline ← extract_outline doc;
  Ok {| title := title; outline := outline |}.

Definition extract_structure (pdf_path : Path) : structure :=
  match try_extract pdf_path with
  | Ok r => r
  | Raise e => {| title := path_stem pdf_path; outline := [] |}
  end.

End Structure.

End Extractor.

Import Extractor.

(** ** The batch driver

    [process_pdfs] on the files [pdf_files] that [input_dir.glob("*.pdf")]
    lists.  [out] is the content of the output directory, by file name.
    [output_dir.mkdir], [open] and [json.dump] stand outside any [try]:
    what they raise leaves [process_pdfs] and ends the loop.  Whether
    they raise depends on the file system, not on the program: it is
    given by [mkdir_raises] and, for the write of the file number [i] of
    the loop, by [write_raises i].  The log keeps the records of [logger]
    with the values they print. *)

Inductive io_error : Type :=
  | OSError (msg : string)               (* open, mkdir or a write failed *)
  | UnicodeEncodeError (msg : string).   (* a text that utf-8 cannot encode *)

(** A file of the output directory: the result that [json.dump] wrote,
    or [Unknown] for a file left by a write that raised (it may be
    missing, unchanged, empty or cut short) or by another program. *)
Inductive file_state : Type :=
  | Dumped (result : structure)
  | Unknown.

Inductive log_record : Type :=
  | LogWarning (msg : string)
  | LogProcessing (name : str)          (* info: Processing <pdf_file.name> *)
  | LogFailed (name : str) (e : exn)    (* error: Failed to process <name>: <e> *)
  | LogSaved (name : str).              (* info: Saved output to <output_file.name> *)

Record batch := { batch_log : list log_record; batch_out : gmap str file_state }.

Section Batch.

Variable fitz_open : Path -> result document.
Variable mkdir_raises : option io_error.
Variable write_raises : nat -> option io_error.

(** [f"{pdf_file.stem}.json"] *)
Definition output_name (pdf_file : Path) : str := path_stem pdf_file ++ py ".json".

(** What the [except] clause of [extract_structure] logs. *)
Definition failure_log (pdf_path : Path) : list log_record :=
  match try_extract fitz_open pdf_path with
  | Ok _ => []
  | Raise e => [LogFailed (path_name pdf_path) e]
  end.

(** The body of the loop for the file number [i]: the state it leaves
    and the exception of [open] or [json.dump], if any. *)
Definition process_file (i : nat) (st : batch) (pdf_file : Path)
  : batch * option io_error :=
  let log := batch_log st ++ LogProcessing (path_name pdf_file) ::
             failure_log pdf_file in
  let result := extract_structure fitz_open pdf_file in
  match write_raises i with
  | Some e =>
      ({| batch_log := log;
          batch_out := <[output_name pdf_file := Unknown]> (batch_out st) |},
       Some e)
  | None =>
      ({| batch_log := log ++ [LogSaved (output_name pdf_file)];
          batch_out := <[output_name pdf_file := Dumped result]> (batch_out st) |},
       None)
  end.

(** [for pdf_file in pdf_files], from the file number [i] on. *)
Fixpoint process_files (i : nat) (st : batch) (pdf_files : list Path)
  : batch * option io_error :=
  match pdf_files with
  | [] => (st, None)
  | pdf_file :: rest =>
      match process_file i st pdf_file with
      | (st', None) => process_files (S i) st' rest
      | (st', Some e) => (st', Some e)
      end
  end.

Definition process_pdfs (pdf_files : list Path) (out : gmap str file_state)
  : batch * option io_error :=
  match mkdir_raises with
  | Some e => ({| batch_log := []; batch_out := out |}, Some e)
  | None =>
      match pdf_files with
      | [] => ({| batch_log := [LogWarning "No PDF files found in input directory."];
                  batch_out := out |}, None)
      | _ => process_files 0 {| batch_log := []; batch_out := out |} pdf_files
      end
  end.

End Batch.

(** * Specification vocabulary

    What the properties are stated with: the views of a document in
    reading order, the documents the two extractors can read, the order
    of the sort, and the sample texts and documents of the scenarios. *)

(** ** Strings and patterns *)

Definition all_space (ws : str) : Prop := Forall (fun c => isspace c = true) ws.

(** A word whose first and last characters are not whitespace. *)
Definition solid (w : str) : Prop :=
  (exists c, head w = Some c /\ isspace c = false) /\
  (exists c, last w = Some c /\ isspace c = false).

(** The sets whose members are never whitespace. *)
Definition nonspace (cs : cset) : Prop :=
  forall c, mem cs c = true -> isspace c = false.

(** Patterns whose words start, or end, with such a character. *)
Fixpoint starts_solid (r : regex) : Prop :=
  match r with
  | One cs => nonspace cs
  | AtLeast n cs => 0 < n /\ nonspace cs
  | Seq r1 _ => starts_solid r1
  | Alt r1 r2 => starts_solid r1 /\ starts_solid r2
  end.

Fixpoint ends_solid (r : regex) : Prop :=
  match r with
  | One cs => nonspace cs
  | AtLeast n cs => 0 < n /\ nonspace cs
  | Seq _ r2 => ends_solid r2
  | Alt r1 r2 => ends_solid r1 /\ ends_solid r2
  end.

(** Upper-case letters and white space only. *)
Definition caps_and_spaces (text : str) : bool :=
  forallb (fun c => char_isupper c || isspace c) text.

(** No cased character at all. *)
Definition uncased (txt : str) : bool :=
  forallb (fun c => negb (char_isupper c || char_islower c)) txt.

(** ** Title candidates *)

(** The test of [extract_title] on a trimmed span text. *)
Definition eligible (txt : str) : bool :=
  (10 <? length txt) && (length txt <? 150) && negb (islower txt).

(** The candidates in reading order, level by level. *)
Definition span_candidates (page_num : nat) (s : span) : list candidate :=
  let txt := strip (span_text s) in
  if eligible txt then [(txt, span_size s, page_num)] else [].

Definition line_candidates (page_num : nat) (l : line) : list candidate :=
  flat_map (span_candidates page_num) (default [] (line_spans l)).

Definition block_candidates (page_num : nat) (b : block) : list candidate :=
  flat_map (line_candidates page_num) (default [] (block_lines b)).

Definition page_candidates (doc : document) (page_num : nat) : list candidate :=
  match doc !! page_num with
  | Some {| get_text_blocks := Ok blocks |} =>
      flat_map (block_candidates page_num) blocks
  | _ => []
  end.

Definition candidates_in_order (doc : document) : list candidate :=
  flat_map (page_candidates doc) (seq 0 (min 2 (page_count doc))).

(** [s] is a span of page [page_num], in a line of a text block. *)
Definition span_at (doc : document) (page_num : nat) (s : span) : Prop :=
  exists pg blocks b lines l spans,
    doc !! page_num = Some pg /\ get_text_blocks pg = Ok blocks /\
    b ∈ blocks /\ block_lines b = Some lines /\
    l ∈ lines /\ line_spans l = Some spans /\ s ∈ spans.

(** [before a b]: the key of [a] is strictly smaller than the key of [b]. *)
Definition before (a b : candidate) : bool := key_ltb (sort_key a) (sort_key b).

(** The first element of the sorted list, computed along the list. *)
Definition first_sorted (l : list candidate) : option candidate :=
  foldr (fun x best =>
           match best with
           | Some y => if before y x then Some y else Some x
           | None => Some x
           end) None l.

(** Documents [extract_title] can read: the first two pages give their
    text, and every line of a text block has its ["spans"]. *)
Definition line_ok (l : line) : bool :=
  match line_spans l with Some _ => true | None => false end.

Definition block_ok (b : block) : bool :=
  forallb line_ok (default [] (block_lines b)).

Definition page_ok (pg : page) : bool :=
  match get_text_blocks pg with
  | Ok blocks => forallb block_ok blocks
  | Raise _ => false
  end.

Definition title_readable (doc : document) : bool :=
  forallb page_ok (take 2 doc).

(** ** Outline lines *)

(** The joined texts of the lines with their page index, in reading
    order, level by level. *)
Definition line_texts (page_num : nat) (l : line) : list (nat * str) :=
  [(page_num, full_line_of l)].

Definition block_texts (page_num : nat) (b : block) : list (nat * str) :=
  flat_map (line_texts page_num) (default [] (block_lines b)).

Definition page_texts (doc : document) (page_num : nat) : list (nat * str) :=
  match doc !! page_num with
  | Some {| get_text_blocks := Ok blocks |} =>
      flat_map (block_texts page_num) blocks
  | _ => []
  end.

Definition lines_in_order (doc : document) : list (nat * str) :=
  flat_map (page_texts doc) (seq 0 (page_count doc)).

(** [l] is a line of page [page_num]. *)
Definition line_at (doc : document) (page_num : nat) (l : line) : Prop :=
  exists pg blocks b lines,
    doc !! page_num = Some pg /\ get_text_blocks pg = Ok blocks /\
    b ∈ blocks /\ block_lines b = Some lines /\ l ∈ lines.

(** The body of the innermost loop as a step on (page index, text), and
    the loops as one fold over the lines in reading order. *)
Definition outline_step (st : outline_state) (p : nat * str) : outline_state :=
  outline_text p.1 p.2 st.

Definition build_outline (ls : list (nat * str)) : outline_state :=
  foldl outline_step ([], ∅) ls.

(** Documents [extract_outline] can read: every page gives its text. *)
Definition outline_readable (doc : document) : bool :=
  forallb (fun pg => match get_text_blocks pg with Ok _ => true | Raise _ => false end)
    doc.

(** The pair the claims speak of: lower-cased text and page. *)
Definition entry_key (e : entry) : str * nat := (lower (entry_text e), entry_page e).

(** The entry a line would give if nothing were suppressed. *)
Definition entry_of (p : nat * str) : option entry :=
  match is_heading p.2 with
  | Some lv => Some {| entry_level := lv; entry_text := p.2; entry_page := p.1 + 1 |}
  | None => None
  end.

Definition page_le (a b : entry) : Prop := entry_page a <= entry_page b.

(** What the loops maintain, [done] being the lines read so far: the keys
    of the outline are distinct, [seen] holds exactly these keys (with
    the page index, one less than the page), the outline keeps the
    reading order, and every heading line read has its key in [seen]. *)
Record outline_inv (st : outline_state) (done : list (nat * str)) : Prop := {
  inv_nodup : NoDup (entry_key <$> st.1);
  inv_seen : forall txt pn, (txt, pn) ∈ st.2 <-> (txt, pn + 1) ∈ entry_key <$> st.1;
  inv_order : st.1 `sublist_of` omap entry_of done;
  inv_all : forall p, p ∈ done -> is_heading p.2 <> None -> (lower p.2, p.1) ∈ st.2
}.

(** ** Sample texts and documents *)

(** A keyword followed by 21 more words. *)
Definition wordy_summary : str :=
  py "SUMMARY of a b c d e f g h i j k l m n o p q r s t".

(** A line of two spans whose joined text has 164 characters, all in
    capitals. *)
Definition long_caps_line : line :=
  {| line_spans := Some
       [ {| span_text := py " INTRODUCTION "; span_size := 12 |};
         {| span_text := replicate 151 "A"%char; span_size := 12 |} ] |}.

(** A numbered line of 22 words. *)
Definition long_numbered : str :=
  py "1.2.3 a b c d e f g h i j k l m n o p q r s t u".

(** 21 one-letter words in capitals. *)
Definition many_caps : str := py "A B C D E F G H I J K L M N O P Q R S T U".

(** A page of one text block with one single-span line per text. *)
Definition text_page (texts : list string) : page :=
  {| get_text_blocks := Ok
       [ {| block_lines := Some
              (map (fun t => {| line_spans :=
                                  Some [ {| span_text := py t; span_size := 12 |} ] |})
                   texts) |} ] |}.

(** "1.2 Background" is the only line of the third page. *)
Definition background_doc : document :=
  [ text_page []; text_page []; text_page ["1.2 Background"]%string ].

(** "CONCLUSION" twice on page 4, the second time in another case, and
    once on page 9. *)
Definition conclusion_doc : document :=
  [ text_page []; text_page []; text_page [];
    text_page ["CONCLUSION"; "we close the report here"; "Conclusion"]%string;
    text_page []; text_page []; text_page []; text_page [];
    text_page ["CONCLUSION"]%string ].

(** Headings on three pages, the last page first giving a sub-heading. *)
Definition ordered_doc : document :=
  [ text_page ["2.1 Scope"; "INTRODUCTION"]%string;
    text_page ["plain text of the second page"]%string;
    text_page ["(3) Details"; "1.1 Aims"]%string ].

(** The scenario of the specification: an 18pt title on page 1, 10pt body
    text on page 2. *)
Definition report_doc : document :=
  [ {| get_text_blocks := Ok
         [ {| block_lines := Some
                [ {| line_spans := Some
                       [ {| span_text := py "Annual Report 2024"; span_size := 18 |} ] |};
                  {| line_spans := Some
                       [ {| span_text := py "prepared by the finance team"; span_size := 10 |} ] |} ] |};
           {| block_lines := None |} ] |};
    {| get_text_blocks := Ok
         [ {| block_lines := Some
                [ {| line_spans := Some
                       [ {| span_text := py "This year the company grew."; span_size := 10 |};
                         {| span_text := py " Revenue rose by a tenth. "; span_size := 10 |} ] |} ] |} ] |} ].

(** Two spans of 18pt on the first page, one of 18pt on the second. *)
Definition tie_doc : document :=
  [ {| get_text_blocks := Ok
         [ {| block_lines := Some
                [ {| line_spans := Some
                       [ {| span_text := py "Minutes of the"; span_size := 12 |};
                         {| span_text := py "Quarterly Review"; span_size := 18 |};
                         {| span_text := py "Board Meeting"; span_size := 18 |} ] |} ] |} ] |};
    {| get_text_blocks := Ok
         [ {| block_lines := Some
                [ {| line_spans := Some
                       [ {| span_text := py "Executive Summary"; span_size := 18 |} ] |} ] |} ] |} ].

(** A document whose only span is [s]. *)
Definition single_span_doc (s : span) : document :=
  [ {| get_text_blocks := Ok
         [ {| block_lines := Some [ {| line_spans := Some [s] |} ] |} ] |} ].

(** Digits and punctuation between blanks. *)
Definition digits_span : span :=
  {| span_text := py "  2024-2025 / 17.03  "; span_size := 9 |}.

Definition broken_pdf : Path :=
  {| path_dir := py "/app/input"; path_name := py "broken.pdf" |}.

(** A file that cannot be opened. *)
Definition unreadable (p : Path) : result document :=
  Raise (FitzError "cannot open broken document").

(** A document that opens but has a line without ["spans"] on its first
    page. *)
Definition spanless_doc : document :=
  [ {| get_text_blocks := Ok
         [ {| block_lines := Some [ {| line_spans := None |} ] |} ] |} ].

(** ** Vocabulary of the further properties *)

(** Decimal digits only. *)
Definition all_decimal (txt : str) : bool := forallb isdecimal txt.

(** [e] with its page moved [n] pages further. *)
Definition shift_entry (n : nat) (e : entry) : entry :=
  {| entry_level := entry_level e; entry_text := entry_text e;
     entry_page := entry_page e + n |}.

(** A name that [*.pdf] matches beyond the suffix itself. *)
Definition pdf_named (f : Path) : Prop :=
  exists base, base <> [] /\ path_name f = base ++ py ".pdf".

Definition report_pdf : Path :=
  {| path_dir := py "/app/input"; path_name := py "annual.report.pdf" |}.

Definition notes_pdf : Path :=
  {| path_dir := py "/app/input"; path_name := py "notes.pdf" |}.

(** The second write of the batch fails, the others succeed. *)
Definition second_write_fails (i : nat) : option io_error :=
  if i =? 1 then Some (OSError "No space left on device") else None.

(** Only "annual.report.pdf" can be opened. *)
Definition open_report (p : Path) : result document :=
  if bool_decide (path_name p = py "annual.report.pdf") then Ok report_doc
  else Raise (FitzError "cannot open broken document").

(** A line, seen [n] pages further. *)
Definition shift_line (n : nat) (p : nat * str) : nat * str := (p.1 + n, p.2).

(** The same heading in two cases on one page, the mixed case first. *)
Definition mixed_case_doc : document :=
  [ text_page ["Conclusion"; "CONCLUSION"]%string ].

(** A heading on the first page, then a line without ["spans"]. *)
Definition spanless_heading_doc : document :=
  [ {| get_text_blocks := Ok
         [ {| block_lines := Some
                [ {| line_spans := Some
                       [ {| span_text := py "1.1 Aims"; span_size := 12 |} ] |};
                  {| line_spans := None |} ] |} ] |} ].

(** * Properties *)

(** ** Facts on strings *)

Section TextFacts.

Implicit Types (s w rest ws : str) (c : ascii).

Lemma lstrip_decomp s : exists ws, s = ws ++ lstrip s /\ all_space ws.
Proof.
  induction s as [|c s [ws [E Hws]]]; simpl.
  - exists []. split; [done | constructor].
  - destruct (isspace c) eqn:Hc.
    + exists (c :: ws). split; [simpl; by f_equal | by constructor].
    + exists []. split; [done | constructor].
Qed.

Lemma lstrip_head s c r : lstrip s = c :: r -> isspace c = false.
Proof.
  induction s as [|a s IH]; simpl; [done|].
  destruct (isspace a) eqn:Ha; [done|]. intros [= -> _]. done.
Qed.

Lemma lstrip_app_solid a c b :
  isspace c = false -> lstrip (a ++ c :: b) = lstrip a ++ c :: b.
Proof.
  intros Hc. induction a as [|x a IH]; simpl.
  - by rewrite Hc.
  - destruct (isspace x); done.
Qed.

Lemma rstrip_decomp s : exists ws, s = rstrip s ++ ws /\ all_space ws.
Proof.
  unfold rstrip. destruct (lstrip_decomp (rev s)) as [ws [E Hws]].
  exists (rev ws). split.
  - rewrite <- rev_app_distr, <- E. by rewrite rev_involutive.
  - by apply Forall_rev.
Qed.

Lemma rstrip_app_solid w c rest :
  isspace c = false -> rstrip ((w ++ [c]) ++ rest) = (w ++ [c]) ++ rstrip rest.
Proof.
  intros Hc. unfold rstrip.
  rewrite !rev_app_distr. simpl.
  rewrite lstrip_app_solid by done.
  rewrite rev_app_distr. simpl. by rewrite rev_involutive.
Qed.

Lemma solid_inv w :
  solid w ->
  exists c1 r, w = c1 :: r /\ isspace c1 = false /\
  exists w' c2, w = w' ++ [c2] /\ isspace c2 = false.
Proof.
  intros [[c1 [Hh H1]] [c2 [Hl H2]]].
  destruct w as [|a r]; [done|]. injection Hh as ->.
  exists c1, r. split; [done|]. split; [done|].
  apply last_Some in Hl as [w' E]. by exists w', c2.
Qed.

(** Trimming keeps a solid prefix and only shortens what follows it. *)
Lemma strip_solid w rest : solid w -> strip (w ++ rest) = w ++ rstrip rest.
Proof.
  intros Hs. destruct (solid_inv w Hs) as (c1 & r & E1 & H1 & w' & c2 & E2 & H2).
  unfold strip.
  assert (lstrip (w ++ rest) = w ++ rest) as ->.
  { rewrite E1. simpl. by rewrite H1. }
  rewrite E2. by apply rstrip_app_solid.
Qed.

Lemma strip_decomp s :
  exists ws1 ws2, s = ws1 ++ strip s ++ ws2 /\ all_space ws1 /\ all_space ws2.
Proof.
  destruct (lstrip_decomp s) as [ws1 [E1 H1]].
  destruct (rstrip_decomp (lstrip s)) as [ws2 [E2 H2]].
  exists ws1, ws2. unfold strip. by rewrite <- E2.
Qed.

Lemma strip_Forall (P : ascii -> Prop) s : Forall P s -> Forall P (strip s).
Proof.
  destruct (strip_decomp s) as (ws1 & ws2 & E & _ & _). intros H.
  rewrite E in H. apply Forall_app in H as [_ H]. by apply Forall_app in H as [H _].
Qed.

Lemma strip_head s c r : strip s = c :: r -> isspace c = false.
Proof.
  unfold strip. intros E.
  destruct (rstrip_decomp (lstrip s)) as [ws [E2 _]].
  rewrite E in E2. simpl in E2. by eapply lstrip_head.
Qed.

(** Without leading whitespace, the trimmed text is a prefix. *)
Lemma strip_prefix s c r :
  s = c :: r -> isspace c = false -> exists ws, s = strip s ++ ws.
Proof.
  intros -> Hc. unfold strip. simpl. rewrite Hc.
  destruct (rstrip_decomp (c :: r)) as [ws [E _]]. by exists ws.
Qed.

Lemma split_from_all_space cur ws :
  all_space ws -> split_from cur ws = match cur with [] => [] | _ => [cur] end.
Proof.
  intros H. revert cur. induction H as [|c ws Hc _ IH]; intros cur; simpl; [done|].
  rewrite Hc. destruct cur; by rewrite IH.
Qed.

Lemma split_from_app_space cur s ws :
  all_space ws -> split_from cur (s ++ ws) = split_from cur s.
Proof.
  intros H. revert cur. induction s as [|c s IH]; intros cur; simpl.
  - by apply split_from_all_space.
  - destruct (isspace c); [|by rewrite IH]. destruct cur; by rewrite IH.
Qed.

Lemma split_space_app ws s : all_space ws -> split (ws ++ s) = split s.
Proof.
  unfold split. induction 1 as [|c ws Hc _ IH]; simpl; [done|]. by rewrite Hc.
Qed.

(** [text.strip().split()] and [text.split()] are the same words. *)
Lemma split_strip s : split (strip s) = split s.
Proof.
  destruct (strip_decomp s) as (ws1 & ws2 & E & H1 & H2).
  rewrite E at 2. rewrite split_space_app by done.
  unfold split. by rewrite split_from_app_space.
Qed.

End TextFacts.

Lemma lstrip_space_app (ws s : str) : all_space ws -> lstrip (ws ++ s) = lstrip s.
Proof. induction 1 as [|c ws Hc _ IH]; simpl; [done|]. by rewrite Hc. Qed.

Lemma rstrip_app_space (s ws : str) : all_space ws -> rstrip (s ++ ws) = rstrip s.
Proof.
  intros H. unfold rstrip. rewrite rev_app_distr.
  rewrite lstrip_space_app; [done|]. by apply Forall_rev.
Qed.

(** Blanks around a text do not change what [strip] gives. *)
Lemma strip_pad (ws1 s ws2 : str) :
  all_space ws1 -> all_space ws2 -> strip (ws1 ++ s ++ ws2) = strip s.
Proof.
  intros H1 H2. unfold strip. rewrite lstrip_space_app by done.
  destruct (lstrip_decomp s) as (a & Ea & Ha).
  rewrite Ea at 1. rewrite <- app_assoc, lstrip_space_app by done.
  destruct (lstrip s) as [|c r] eqn:El.
  - simpl. rewrite <- (app_nil_r ws2). by rewrite lstrip_space_app.
  - pose proof (lstrip_head _ _ _ El) as Hc.
    assert (lstrip ((c :: r) ++ ws2) = (c :: r) ++ ws2) as -> by (simpl; by rewrite Hc).
    by apply rstrip_app_space.
Qed.

Lemma strip_idem (s : str) : strip (strip s) = strip s.
Proof.
  destruct (strip_decomp s) as (ws1 & ws2 & E & H1 & H2).
  rewrite E at 2. by rewrite strip_pad.
Qed.

(** ** Facts on the matcher *)

Section ReFacts.

Implicit Types (r : regex) (cs : cset) (s w rest : str) (k : str -> bool).

Lemma many_sound cs k n s :
  many cs k n s = true ->
  exists w rest, s = w ++ rest /\ n <= length w /\
    Forall (fun c => mem cs c = true) w /\ k rest = true.
Proof.
  revert n. induction s as [|c s IH]; intros n; simpl.
  - rewrite andb_true_iff, bool_decide_eq_true. intros [-> Hk].
    exists [], []. repeat split; [lia | constructor | done].
  - rewrite orb_true_iff, !andb_true_iff, bool_decide_eq_true.
    intros [[Hc Hm] | [-> Hk]].
    + destruct (IH _ Hm) as (w & rest & -> & Hn & Hw & Hk).
      exists (c :: w), rest. repeat split; [simpl; lia | by constructor | done].
    + exists [], (c :: s). repeat split; [lia | constructor | done].
Qed.

Lemma many_complete cs k n w rest :
  n <= length w -> Forall (fun c => mem cs c = true) w -> k rest = true ->
  many cs k n (w ++ rest) = true.
Proof.
  intros Hn Hw Hk. revert n Hn.
  induction Hw as [|c w Hc Hw IH]; intros n Hn; simpl in *.
  - assert (n = 0) as -> by lia.
    destruct rest; simpl; rewrite Hk; [done|]. by rewrite orb_true_r.
  - rewrite Hc, IH by lia. done.
Qed.

Lemma run_sound r s k :
  run r s k = true -> exists w rest, s = w ++ rest /\ lang r w /\ k rest = true.
Proof.
  revert s k. induction r as [cs|n cs|r1 IH1 r2 IH2|r1 IH1 r2 IH2];
    intros s k; simpl.
  - destruct s as [|c s]; [done|]. rewrite andb_true_iff. intros [Hc Hk].
    exists [c], s. repeat split; [by constructor | done].
  - intros H. destruct (many_sound _ _ _ _ H) as (w & rest & -> & Hn & Hw & Hk).
    exists w, rest. repeat split; [by constructor | done].
  - intros H. destruct (IH1 _ _ H) as (w1 & rest1 & -> & L1 & H2).
    destruct (IH2 _ _ H2) as (w2 & rest & -> & L2 & Hk).
    exists (w1 ++ w2), rest. rewrite <- app_assoc.
    repeat split; [by constructor | done].
  - rewrite orb_true_iff. intros [H|H].
    + destruct (IH1 _ _ H) as (w & rest & -> & L & Hk).
      exists w, rest. repeat split; [by apply lang_Alt_l | done].
    + destruct (IH2 _ _ H) as (w & rest & -> & L & Hk).
      exists w, rest. repeat split; [by apply lang_Alt_r | done].
Qed.

Lemma run_complete r w rest k :
  lang r w -> k rest = true -> run r (w ++ rest) k = true.
Proof.
  intros L. revert rest k.
  induction L as [cs c Hc|n cs w Hn Hw|r1 r2 w1 w2 _ IH1 _ IH2|r1 r2 w _ IH|r1 r2 w _ IH];
    intros rest k Hk; simpl.
  - by rewrite Hc, Hk.
  - by apply many_complete.
  - rewrite <- app_assoc. apply IH1. by apply IH2.
  - by rewrite IH.
  - rewrite (IH rest k Hk). by rewrite orb_true_r.
Qed.

(** [re.match] succeeds exactly when a prefix of the text is a word of
    the pattern. *)
Lemma re_match_spec r s :
  re_match r s = true <-> exists w rest, s = w ++ rest /\ lang r w.
Proof.
  unfold re_match. split.
  - intros H. destruct (run_sound _ _ _ H) as (w & rest & E & L & _). eauto.
  - intros (w & rest & -> & L). by apply run_complete.
Qed.

(** A match is not lost when text is added at the end. *)
Lemma re_match_app r s t : re_match r s = true -> re_match r (s ++ t) = true.
Proof.
  rewrite !re_match_spec. intros (w & rest & -> & L).
  exists w, (rest ++ t). by rewrite app_assoc.
Qed.

(** A match on a solid word survives trimming. *)
Lemma re_match_strip r s :
  (forall w, lang r w -> solid w) ->
  re_match r s = true -> re_match r (strip s) = true.
Proof.
  intros Hsolid. rewrite !re_match_spec. intros (w & rest & -> & L).
  exists w, (rstrip rest). split; [|done]. apply strip_solid. by apply Hsolid.
Qed.

End ReFacts.

(** ** Facts on characters and on the heading patterns *)

Ltac char_cases c :=
  destruct c as [[] [] [] [] [] [] [] []]; vm_compute; try congruence; try done.

Lemma decimal_not_space c : isdecimal c = true -> isspace c = false.
Proof. char_cases c. Qed.

Lemma az_not_decimal c : mem (Range "a" "z") c = true -> isdecimal c = false.
Proof. char_cases c. Qed.

Lemma az_not_09 c :
  mem (Range "a" "z") c = true -> mem (Range "0" "9") c = false.
Proof. char_cases c. Qed.

Lemma upper_not_lower c : char_isupper c = true -> char_islower c = false.
Proof. char_cases c. Qed.

Lemma space_not_lower c : isspace c = true -> char_islower c = false.
Proof. char_cases c. Qed.

Lemma upper_not_decimal c : char_isupper c = true -> isdecimal c = false.
Proof. char_cases c. Qed.

Lemma upper_not_az c : char_isupper c = true -> mem (Range "a" "z") c = false.
Proof. char_cases c. Qed.

Lemma upper_not_paren c : char_isupper c = true -> c <> "("%char.
Proof. char_cases c. Qed.

Lemma atleast_solid n cs (w : str) :
  0 < n -> nonspace cs -> n <= length w ->
  Forall (fun c => mem cs c = true) w -> solid w.
Proof.
  intros Hn Hcs Hlen Hw. split.
  - destruct w as [|c w]; [simpl in Hlen; lia|]. exists c. split; [done|].
    apply Hcs. by inversion Hw.
  - destruct (last w) as [c|] eqn:El.
    + exists c. split; [done|]. apply Hcs.
      apply last_Some in El as [w' ->]. apply Forall_app in Hw as [_ Hw].
      by inversion Hw.
    + apply last_None in El. subst. simpl in Hlen. lia.
Qed.

Lemma lang_starts_solid r w :
  starts_solid r -> lang r w -> exists c, head w = Some c /\ isspace c = false.
Proof.
  intros Hr L. induction L as [cs c Hc|n cs w Hn Hw|r1 r2 w1 w2 _ IH1 _ _|r1 r2 w _ IH|r1 r2 w _ IH];
    simpl in Hr.
  - exists c. split; [done | by apply Hr].
  - destruct Hr as [H0 Hcs]. by destruct (atleast_solid n cs w H0 Hcs Hn Hw).
  - destruct (IH1 Hr) as (c & Hh & Hc). exists c. split; [|done].
    destruct w1; [done|]. done.
  - apply IH, Hr.
  - apply IH, Hr.
Qed.

Lemma lang_ends_solid r w :
  ends_solid r -> lang r w -> exists c, last w = Some c /\ isspace c = false.
Proof.
  intros Hr L. induction L as [cs c Hc|n cs w Hn Hw|r1 r2 w1 w2 _ _ _ IH2|r1 r2 w _ IH|r1 r2 w _ IH];
    simpl in Hr.
  - exists c. split; [done | by apply Hr].
  - destruct Hr as [H0 Hcs]. by destruct (atleast_solid n cs w H0 Hcs Hn Hw).
  - destruct (IH2 Hr) as (c & Hl & Hc). exists c. split; [|done].
    apply last_Some in Hl as [w' ->]. rewrite app_assoc. apply last_snoc.
  - apply IH, Hr.
  - apply IH, Hr.
Qed.

(** The H2 and H3 patterns match solid words only, so they see the same
    prefix before and after [strip]. *)
Lemma numbered_pattern_solid r :
  r ∈ h3_patterns ++ h2_patterns -> starts_solid r /\ ends_solid r.
Proof.
  intros Hr. repeat (apply elem_of_cons in Hr as [-> | Hr]);
    [ .. | by apply elem_of_nil in Hr ];
    simpl; repeat split; try lia; intros c; char_cases c.
Qed.

Lemma numbered_pattern_strip r text :
  r ∈ h3_patterns ++ h2_patterns ->
  re_match r text = true -> re_match r (strip text) = true.
Proof.
  intros Hr. apply re_match_strip. intros w L.
  destruct (numbered_pattern_solid r Hr) as [Hs He].
  split; [by eapply lang_starts_solid | by eapply lang_ends_solid].
Qed.

(** The first characters of a text matched by each H2 or H3 pattern. *)
Lemma h3_numeric_head s :
  re_match h3_numeric s = true -> exists c r, s = c :: r /\ isdecimal c = true.
Proof.
  destruct s as [|c r]; [done|]. unfold re_match. simpl.
  rewrite orb_false_r, andb_true_iff. intros [Hc _]. eauto.
Qed.

Lemma h2_numeric_head s :
  re_match h2_numeric s = true -> exists c r, s = c :: r /\ isdecimal c = true.
Proof.
  destruct s as [|c r]; [done|]. unfold re_match. simpl.
  rewrite orb_false_r, andb_true_iff. intros [Hc _]. eauto.
Qed.

Lemma h3_paren_head s :
  re_match h3_paren s = true ->
  exists c r, s = "("%char :: c :: r /\ mem (Range "0" "9") c = true.
Proof.
  destruct s as [|a [|c r]]; unfold re_match; simpl;
    rewrite ?andb_true_iff, ?bool_decide_eq_true; try (intros [_ ?]; done); try done.
  rewrite orb_false_r, andb_true_iff. intros [-> [Hc _]]. eauto.
Qed.

Lemma h2_paren_letter_head s :
  re_match h2_paren_letter s = true ->
  exists c r, s = "("%char :: c :: r /\ mem (Range "a" "z") c = true.
Proof.
  destruct s as [|a [|c r]]; unfold re_match; simpl;
    rewrite ?andb_true_iff, ?bool_decide_eq_true; try (intros [_ ?]; done); try done.
  intros [-> [Hc _]]. eauto.
Qed.

Lemma h2_letter_head s :
  re_match h2_letter s = true ->
  exists c r, s = c :: r /\ mem (Range "a" "z") c = true.
Proof.
  destruct s as [|c r]; [done|]. unfold re_match. simpl.
  rewrite andb_true_iff. intros [Hc _]. eauto.
Qed.

(** ** The heading classifier *)

Lemma gate_open text :
  length (split text) <= 20 -> length (strip text) <= 150 ->
  (20 <? length (split (strip text))) || (150 <? length (strip text)) = false.
Proof.
  intros Hw Hl. rewrite split_strip. apply orb_false_iff.
  split; apply Nat.ltb_ge; lia.
Qed.

(** The classifier on a text that passed the gate, as a chain of tests on
    the trimmed text. *)
Lemma is_heading_open text :
  length (split text) <= 20 -> length (strip text) <= 150 ->
  is_heading text =
    let t := strip text in
    if any_match h3_patterns t then Some H3
    else if any_match h2_patterns t then Some H2
    else if any_match h1_patterns t then Some H1
    else if bool_decide (lower t ∈ heading_keywords) || isupper t then Some H1
    else None.
Proof. intros Hw Hl. unfold is_heading. by rewrite gate_open. Qed.

Lemma is_heading_gate_closed text :
  150 < length (strip text) \/ 20 < length (split text) ->
  is_heading text = None.
Proof.
  intros H. unfold is_heading. rewrite split_strip.
  assert ((20 <? length (split text)) || (150 <? length (strip text)) = true) as ->;
    [|done].
  apply orb_true_iff. destruct H as [H|H]; [right | left]; apply Nat.ltb_lt; lia.
Qed.

(** C4. A line text, that is a trimmed text and in particular the joined
    text of any line as [extract_outline] builds it, that is longer than
    150 characters or has more than 20 whitespace-delimited words is no
    heading, whatever pattern or keyword it contains. *)
Theorem is_heading_rejects_long :
  (forall text,
     strip text = text ->
     150 < length text \/ 20 < length (split text) ->
     is_heading text = None) /\
  (forall l : line,
     150 < length (full_line_of l) \/ 20 < length (split (full_line_of l)) ->
     is_heading (full_line_of l) = None).
Proof.
  assert (forall text, strip text = text ->
            150 < length text \/ 20 < length (split text) ->
            is_heading text = None) as Htrim.
  { intros text Et H. apply is_heading_gate_closed. by rewrite Et. }
  split; [done|]. intros l. apply Htrim. unfold full_line_of. apply strip_idem.
Qed.

Lemma is_heading_rejects_long_witness :
  is_heading wordy_summary = None /\ is_heading (full_line_of long_caps_line) = None.
Proof.
  destruct is_heading_rejects_long as [Htext Hline]. split.
  - apply Htext; [reflexivity | right; vm_compute; lia].
  - apply Hline. left. vm_compute. lia.
Defined.

(** C5, as amended. A text that passes the length and word gate and
    starts with [<int>.<int>.<int>] or with [(<int>)] is an H3, whatever
    H2 or H1 pattern matches it as well; the H2 pattern [<int>.<int>]
    matches every text of the first kind. *)
Theorem is_heading_h3 text :
  length (split text) <= 20 -> length (strip text) <= 150 ->
  re_match h3_numeric text = true \/ re_match h3_paren text = true ->
  is_heading text = Some H3 /\
  (re_match h3_numeric text = true -> re_match h2_numeric text = true).
Proof.
  intros Hw Hl H. split.
  - rewrite is_heading_open by done.
    unfold any_match at 1, h3_patterns. cbn [existsb].
    destruct H as [H|H]; apply numbered_pattern_strip in H; try set_solver;
      cbv zeta; rewrite H; [done | by rewrite orb_true_r].
  - clear H. rewrite !re_match_spec. intros (w & rest & -> & L).
    unfold h3_numeric in L.
    inversion L as [| |? ? w1 x1 L1 Lx1| |]; subst.
    inversion Lx1 as [| |? ? w2 x2 L2 Lx2| |]; subst.
    inversion Lx2 as [| |? ? w3 x3 L3 Lx3| |]; subst.
    exists (w1 ++ w2 ++ w3), (x3 ++ rest). split.
    + by rewrite <- !app_assoc.
    + unfold h2_numeric. apply lang_Seq; [done|]. by apply lang_Seq.
Qed.

Lemma is_heading_h3_witness :
  is_heading (py "1.2.3 Scope") = Some H3 /\
  (re_match h3_numeric (py "1.2.3 Scope") = true ->
   re_match h2_numeric (py "1.2.3 Scope") = true).
Proof.
  apply is_heading_h3; [vm_compute; lia | vm_compute; lia | by left].
Defined.

(** C5 as stated fails: the gate comes first. A numbered line of 22
    words matches [^\d+\.\d+\.\d+] and is no heading. *)
Lemma is_heading_h3_long_line :
  re_match h3_numeric long_numbered = true /\ is_heading long_numbered = None.
Proof. by vm_compute. Qed.

Lemma no_h3_match t :
  re_match h3_numeric t = false -> re_match h3_paren t = false ->
  any_match h3_patterns t = false.
Proof. intros H1 H2. unfold any_match, h3_patterns. cbn [existsb]. by rewrite H1, H2. Qed.

Lemma no_h2_match t :
  re_match h2_numeric t = false -> re_match h2_paren_letter t = false ->
  re_match h2_letter t = false -> any_match h2_patterns t = false.
Proof.
  intros H1 H2 H3. unfold any_match, h2_patterns. cbn [existsb].
  by rewrite H1, H2, H3.
Qed.

(** C6. A text that passes the gate and starts with [<int>.<int>] but
    not with [<int>.<int>.<int>], or with a lower-case letter as [(a)]
    or [a)], is an H2; the line "1.2 Background" of page 3 gives the
    entry (H2, "1.2 Background", 3). *)
Theorem is_heading_h2 :
  (forall text,
     length (split text) <= 20 -> length (strip text) <= 150 ->
     (re_match h2_numeric text = true /\ re_match h3_numeric text = false) \/
     re_match h2_paren_letter text = true \/ re_match h2_letter text = true ->
     is_heading text = Some H2) /\
  extract_outline background_doc =
    Ok [ {| entry_level := H2; entry_text := py "1.2 Background";
            entry_page := 3 |} ].
Proof.
  split; [|by vm_compute].
  intros text Hw Hl H. rewrite is_heading_open by done. cbv zeta.
  assert (any_match h3_patterns (strip text) = false /\
          any_match h2_patterns (strip text) = true) as [-> ->]; [|done].
  unfold any_match at 2, h2_patterns. cbn [existsb].
  destruct H as [[H Hn] | [H | H]].
  - pose proof (numbered_pattern_strip h2_numeric text ltac:(set_solver) H) as Ht.
    rewrite Ht. split; [|done].
    destruct (h2_numeric_head _ H) as (c & r & E & Hc).
    destruct (strip_prefix text c r E (decimal_not_space c Hc)) as [ws Ews].
    apply no_h3_match.
    + destruct (re_match h3_numeric (strip text)) eqn:E3; [|done].
      apply (re_match_app _ _ ws) in E3. rewrite <- Ews in E3. congruence.
    + destruct (re_match h3_paren (strip text)) eqn:E3; [|done].
      destruct (h3_paren_head _ E3) as (a & r' & Et & _).
      destruct (h2_numeric_head _ Ht) as (c' & r'' & Et' & Hc').
      rewrite Et in Et'. injection Et' as <- _. by vm_compute in Hc'.
  - pose proof (numbered_pattern_strip h2_paren_letter text ltac:(set_solver) H) as Ht.
    rewrite Ht, orb_true_r. split; [|done].
    destruct (h2_paren_letter_head _ Ht) as (c & r & Et & Hc).
    apply no_h3_match.
    + destruct (re_match h3_numeric (strip text)) eqn:E3; [|done].
      destruct (h3_numeric_head _ E3) as (c' & r' & Et' & Hc').
      rewrite Et in Et'. injection Et' as <- _. by vm_compute in Hc'.
    + destruct (re_match h3_paren (strip text)) eqn:E3; [|done].
      destruct (h3_paren_head _ E3) as (c' & r' & Et' & Hc').
      rewrite Et in Et'. injection Et' as <- _.
      apply az_not_09 in Hc. congruence.
  - pose proof (numbered_pattern_strip h2_letter text ltac:(set_solver) H) as Ht.
    rewrite Ht, !orb_true_r. split; [|done].
    destruct (h2_letter_head _ Ht) as (c & r & Et & Hc).
    apply no_h3_match.
    + destruct (re_match h3_numeric (strip text)) eqn:E3; [|done].
      destruct (h3_numeric_head _ E3) as (c' & r' & Et' & Hc').
      rewrite Et in Et'. injection Et' as <- _.
      apply az_not_decimal in Hc. congruence.
    + destruct (re_match h3_paren (strip text)) eqn:E3; [|done].
      destruct (h3_paren_head _ E3) as (c' & r' & Et' & _).
      rewrite Et in Et'. injection Et' as -> _. by vm_compute in Hc.
Qed.

Lemma is_heading_h2_witness :
  is_heading (py "1.2 Background") = Some H2 /\
  is_heading (py "(a) Scope") = Some H2 /\
  is_heading (py "b) Aims") = Some H2.
Proof.
  destruct is_heading_h2 as [H _].
  split; [|split]; apply H; vm_compute; lia.
Defined.

Lemma isupper_from_no_lower cased (t : str) :
  Forall (fun c => char_islower c = false) t ->
  isupper_from cased t = cased || existsb char_isupper t.
Proof.
  intros H. revert cased. induction H as [|c t Hc _ IH]; intros cased; simpl.
  - by rewrite orb_false_r.
  - rewrite Hc, IH. by rewrite orb_assoc.
Qed.

(** C7, as amended. A text of upper-case letters and spaces whose
    trimmed length is between 5 and 150 and that has at most 20 words is
    an H1. *)
Theorem is_heading_caps text :
  caps_and_spaces text = true ->
  5 <= length (strip text) -> length (strip text) <= 150 ->
  length (split text) <= 20 ->
  is_heading text = Some H1.
Proof.
  intros Hcaps H5 Hl Hw. rewrite is_heading_open by done. cbv zeta.
  unfold caps_and_spaces in Hcaps.
  apply Is_true_true_2, forallb_True, (strip_Forall _ text) in Hcaps.
  destruct (strip text) as [|c r] eqn:Et; [simpl in H5; lia|].
  pose proof (strip_head _ _ _ Et) as Hsp.
  assert (char_isupper c = true) as Hup.
  { inversion Hcaps as [|? ? Hc _]; subst. apply Is_true_true_1 in Hc.
    by rewrite Hsp, orb_false_r in Hc. }
  rewrite no_h3_match, no_h2_match.
  - destruct (any_match h1_patterns (c :: r)); [done|].
    assert (isupper (c :: r) = true) as ->; [|by rewrite orb_true_r].
    unfold isupper. rewrite isupper_from_no_lower.
    + simpl. by rewrite Hup.
    + eapply Forall_impl; [exact Hcaps|]. intros a Ha. simpl in Ha.
      apply Is_true_true_1 in Ha.
      destruct (char_isupper a) eqn:Ea; [by apply upper_not_lower|].
      destruct (isspace a) eqn:Es; [by apply space_not_lower | done].
  - destruct (re_match h2_numeric (c :: r)) eqn:E; [|done].
    destruct (h2_numeric_head _ E) as (c' & r' & [= <- _] & Hc').
    apply upper_not_decimal in Hup. congruence.
  - destruct (re_match h2_paren_letter (c :: r)) eqn:E; [|done].
    destruct (h2_paren_letter_head _ E) as (c' & r' & [= -> _] & _).
    by vm_compute in Hup.
  - destruct (re_match h2_letter (c :: r)) eqn:E; [|done].
    destruct (h2_letter_head _ E) as (c' & r' & [= <- _] & Hc').
    apply upper_not_az in Hup. congruence.
  - destruct (re_match h3_numeric (c :: r)) eqn:E; [|done].
    destruct (h3_numeric_head _ E) as (c' & r' & [= <- _] & Hc').
    apply upper_not_decimal in Hup. congruence.
  - destruct (re_match h3_paren (c :: r)) eqn:E; [|done].
    destruct (h3_paren_head _ E) as (c' & r' & [= -> _] & _).
    by vm_compute in Hup.
Qed.

Lemma is_heading_caps_witness : is_heading (py "PROJECT PLAN") = Some H1.
Proof. apply is_heading_caps; vm_compute; (done || lia). Defined.

(** C7 as stated fails: 21 one-letter words in capitals are rejected by
    the gate. *)
Lemma is_heading_caps_long_line :
  caps_and_spaces many_caps = true /\ 5 <= length many_caps /\
  is_heading many_caps = None.
Proof. split; [by vm_compute | split; [vm_compute; lia | by vm_compute]]. Qed.

(** ** Loops *)

Section Loops.

Context {A St : Type}.
Implicit Types (xs : list A) (body : A -> St -> result St).

Lemma for_each_app xs ys body st :
  for_each (xs ++ ys) body st = st' ← for_each xs body st; for_each ys body st'.
Proof.
  revert st. induction xs as [|x xs IH]; intros st; simpl; [done|].
  destruct (body x st) as [st1|e]; simpl; [apply IH | done].
Qed.

(** A loop whose body cannot raise returns. *)
Lemma for_each_total xs body st :
  (forall x st, x ∈ xs -> exists st', body x st = Ok st') ->
  exists st', for_each xs body st = Ok st'.
Proof.
  revert st. induction xs as [|x xs IH]; intros st H; simpl; [eauto|].
  destruct (H x st) as [st1 ->]; [set_solver|]. simpl.
  apply IH. intros y st2 Hy. apply H. set_solver.
Qed.

(** Every iteration of a loop that returns can return. *)
Lemma for_each_returns xs body st st' :
  for_each xs body st = Ok st' ->
  forall x, x ∈ xs -> exists s s', body x s = Ok s'.
Proof.
  revert st. induction xs as [|y xs IH]; intros st H x Hx; simpl in H.
  - by apply elem_of_nil in Hx.
  - destruct (body y st) as [st1|e] eqn:E; simpl in H; [|done].
    apply elem_of_cons in Hx as [->|Hx]; [eauto | by eapply IH].
Qed.

End Loops.

(** A loop that appends to a list appends, in order, what each iteration
    appends. *)
Lemma for_each_appends {A B} (f : A -> list B) (xs : list A)
    (body : A -> list B -> result (list B)) st st' :
  (forall x st st', x ∈ xs -> body x st = Ok st' -> st' = st ++ f x) ->
  for_each xs body st = Ok st' -> st' = st ++ flat_map f xs.
Proof.
  revert st. induction xs as [|x xs IH]; intros st Hb; simpl.
  - intros [= <-]. by rewrite app_nil_r.
  - destruct (body x st) as [st1|e] eqn:E; simpl; [|done].
    intros H. apply IH in H; [|intros y s s' Hy; apply Hb; set_solver].
    rewrite (Hb x st st1) in H by (done || set_solver).
    by rewrite <- app_assoc in H.
Qed.

(** ** The title *)

Lemma elem_of_flat_map {A B} (f : A -> list B) (xs : list A) (b : B) :
  b ∈ flat_map f xs <-> exists x, x ∈ xs /\ b ∈ f x.
Proof.
  rewrite !list_elem_of_In, in_flat_map. split; intros (x & H1 & H2); exists x;
    by rewrite ?list_elem_of_In in *.
Qed.

Lemma elem_of_candidates_in_order doc c :
  c ∈ candidates_in_order doc <->
  exists page_num s,
    page_num < min 2 (page_count doc) /\ span_at doc page_num s /\
    eligible (strip (span_text s)) = true /\
    c = (strip (span_text s), span_size s, page_num).
Proof.
  unfold candidates_in_order. rewrite elem_of_flat_map. split.
  - intros (pn & Hpn & Hc). apply elem_of_seq in Hpn.
    unfold page_candidates in Hc.
    destruct (doc !! pn) as [[[blocks|e]]|] eqn:Ed; try by apply elem_of_nil in Hc.
    apply elem_of_flat_map in Hc as (b & Hb & Hc).
    unfold block_candidates in Hc. apply elem_of_flat_map in Hc as (l & Hl & Hc).
    unfold line_candidates in Hc. apply elem_of_flat_map in Hc as (s & Hs & Hc).
    unfold span_candidates in Hc. cbv zeta in Hc.
    destruct (eligible (strip (span_text s))) eqn:El; [|by apply elem_of_nil in Hc].
    apply list_elem_of_singleton in Hc.
    destruct (block_lines b) as [lines|] eqn:Eb; [|by apply elem_of_nil in Hl].
    destruct (line_spans l) as [spans|] eqn:Es; [|by apply elem_of_nil in Hs].
    exists pn, s. split; [lia|]. split; [|done].
    by exists {| get_text_blocks := Ok blocks |}, blocks, b, lines, l, spans.
  - intros (pn & s & Hpn & Hat & El & ->).
    destruct Hat as (pg & blocks & b & lines & l & spans & Ed & Eg & Hb & Eb & Hl & Es & Hs).
    exists pn. split; [apply elem_of_seq; lia|].
    unfold page_candidates. rewrite Ed. destruct pg as [g]. simpl in Eg. subst g.
    apply elem_of_flat_map. exists b. split; [done|].
    unfold block_candidates. rewrite Eb. apply elem_of_flat_map. exists l.
    split; [done|]. unfold line_candidates. rewrite Es.
    apply elem_of_flat_map. exists s. split; [done|].
    unfold span_candidates. cbv zeta. rewrite El. by apply list_elem_of_singleton.
Qed.

(** The loops of [extract_title] collect these candidates, in this order. *)
Lemma title_span_appends pn s st st' :
  title_span pn s st = Ok st' -> st' = st ++ span_candidates pn s.
Proof.
  unfold title_span, span_candidates, eligible. cbv zeta.
  destruct (_ && _); intros [= <-]; [done | by rewrite app_nil_r].
Qed.

Lemma title_line_appends pn l st st' :
  title_line pn l st = Ok st' -> st' = st ++ line_candidates pn l.
Proof.
  unfold title_line, line_candidates.
  destruct (line_spans l) as [spans|]; simpl; [|done].
  apply for_each_appends. intros s s1 s2 _. apply title_span_appends.
Qed.

Lemma title_block_appends pn b st st' :
  title_block pn b st = Ok st' -> st' = st ++ block_candidates pn b.
Proof.
  unfold title_block, block_candidates.
  destruct (block_lines b) as [lines|]; simpl.
  - apply for_each_appends. intros l s1 s2 _. apply title_line_appends.
  - intros [= <-]. by rewrite app_nil_r.
Qed.

Lemma title_page_appends doc pn st st' :
  title_page doc pn st = Ok st' -> st' = st ++ page_candidates doc pn.
Proof.
  unfold title_page, page_candidates, load_page.
  destruct (doc !! pn) as [[[blocks|e]]|]; simpl; try done.
  apply for_each_appends. intros b s1 s2 _. apply title_block_appends.
Qed.

Lemma title_candidates_in_order doc cands :
  title_candidates doc = Ok cands -> cands = candidates_in_order doc.
Proof.
  unfold title_candidates. intros H.
  apply (for_each_appends (page_candidates doc)) in H; [done|].
  intros pn s1 s2 _. apply title_page_appends.
Qed.

(** *** The order of the sort *)

Lemma before_spec a b :
  before a b = true <->
  (cand_size b < cand_size a)%Q \/
  ((cand_size a == cand_size b)%Q /\ cand_page a < cand_page b).
Proof.
  unfold before, key_ltb, sort_key, Qltb. simpl.
  destruct (Qeq_bool (- cand_size a) (- cand_size b)) eqn:E.
  - apply Qeq_bool_iff in E. rewrite Nat.ltb_lt. split.
    + intros H. right. split; [lra | done].
    + intros [H|[_ H]]; [lra | done].
  - apply Qeq_bool_neq in E. rewrite negb_true_iff.
    destruct (Qle_bool (- cand_size b) (- cand_size a)) eqn:E2.
    + apply Qle_bool_iff in E2. split; [done|]. intros [H|[H _]]; lra.
    + split; [|done]. intros _. left.
      destruct (Qlt_le_dec (cand_size b) (cand_size a)) as [H|H]; [done|].
      assert (Qle_bool (- cand_size b) (- cand_size a) = true); [|congruence].
      apply Qle_bool_iff. lra.
Qed.

Lemma not_before_spec a b :
  before a b = false <->
  (cand_size a <= cand_size b)%Q /\
  ((cand_size a == cand_size b)%Q -> cand_page b <= cand_page a).
Proof.
  rewrite <- not_true_iff_false, before_spec. split.
  - intros H. split.
    + destruct (Qlt_le_dec (cand_size b) (cand_size a)); [|done].
      exfalso. apply H. by left.
    + intros E. destruct (decide (cand_page a < cand_page b)); [|lia].
      exfalso. apply H. by right.
  - intros [H1 H2] [H|[E H]]; [lra|]. specialize (H2 E). lia.
Qed.

Lemma before_asym a b : before a b = true -> before b a = false.
Proof.
  rewrite before_spec, not_before_spec. intros [H|[E H]]; split; lra || lia.
Qed.

(** Whoever sorts before [c] sorts before [b], or [b] sorts before [c]. *)
Lemma before_cotrans a b c :
  before a c = true -> before a b = true \/ before b c = true.
Proof.
  rewrite !before_spec. intros H.
  destruct (Qlt_le_dec (cand_size b) (cand_size a)) as [H1|H1]; [by left; left|].
  destruct (Qlt_le_dec (cand_size c) (cand_size b)) as [H2|H2]; [by right; left|].
  destruct H as [H|[E H]]; [lra|].
  assert (cand_size a == cand_size b)%Q by lra.
  assert (cand_size b == cand_size c)%Q by lra.
  destruct (decide (cand_page a < cand_page b)); [by left; right|].
  right. right. split; [done | lia].
Qed.

Lemma head_sort_insert x l :
  head (sort_insert x l) =
    match head l with
    | Some y => if before y x then Some y else Some x
    | None => Some x
    end.
Proof. destruct l as [|y l]; simpl; [done|]. unfold before. by destruct (key_ltb _ _). Qed.

Lemma head_sort l : head (sort l) = first_sorted l.
Proof.
  induction l as [|x l IH]; simpl; [done|]. by rewrite head_sort_insert, IH.
Qed.

Lemma first_sorted_None l : first_sorted l = None -> l = [].
Proof.
  destruct l as [|x l]; simpl; [done|].
  destruct (first_sorted l) as [y|]; [|done]. by destruct (before y x).
Qed.

Lemma before_irrefl a : before a a = false.
Proof. destruct (before a a) eqn:E; [|done]. apply before_asym in E as E'. congruence. Qed.

(** The first sorted element is a smallest one... *)
Lemma first_sorted_min l c :
  first_sorted l = Some c -> c ∈ l /\ forall x, x ∈ l -> before x c = false.
Proof.
  revert c. induction l as [|x l IH]; intros c; simpl; [done|].
  destruct (first_sorted l) as [y|] eqn:E.
  - destruct (IH y eq_refl) as [Hy Hmin].
    destruct (before y x) eqn:Eyx; intros [= <-].
    + split; [apply elem_of_cons; by right|].
      intros z [->|Hz]%elem_of_cons; [by apply before_asym | by apply Hmin].
    + split; [apply elem_of_cons; by left|].
      intros z [->|Hz]%elem_of_cons; [apply before_irrefl|].
      destruct (before z x) eqn:Ezx; [|done].
      destruct (before_cotrans z y x Ezx) as [H|H]; [|congruence].
      by rewrite Hmin in H.
  - apply first_sorted_None in E as ->. intros [= <-].
    split; [apply elem_of_cons; by left|].
    intros z [->|Hz]%elem_of_cons; [apply before_irrefl | by apply elem_of_nil in Hz].
Qed.

(** ... and among the smallest ones the first of the list: the sort is
    stable. *)
Lemma first_sorted_stable l1 c l2 :
  (forall x, x ∈ l1 -> before c x = true) ->
  (forall x, x ∈ l2 -> before x c = false) ->
  first_sorted (l1 ++ c :: l2) = Some c.
Proof.
  intros H1 H2. induction l1 as [|x l1 IH]; simpl.
  - destruct (first_sorted l2) as [y|] eqn:E; [|done].
    apply first_sorted_min in E as [Hy _]. by rewrite (H2 y Hy).
  - rewrite IH by (intros; apply H1; set_solver).
    by rewrite (H1 x) by set_solver.
Qed.

(** [sort] rearranges the list and leaves its keys in ascending order. *)
Lemma sort_insert_perm x l : sort_insert x l ≡ₚ x :: l.
Proof.
  induction l as [|y l IH]; simpl; [done|].
  destruct (key_ltb _ _); [|done]. rewrite IH. apply Permutation_swap.
Qed.

Lemma sort_perm l : sort l ≡ₚ l.
Proof.
  induction l as [|x l IH]; simpl; [done|]. by rewrite sort_insert_perm, IH.
Qed.

Lemma sort_insert_sorted x l :
  Sorted (fun a b => before b a = false) l ->
  Sorted (fun a b => before b a = false) (sort_insert x l).
Proof.
  induction 1 as [|y l Hl IH Hhd]; simpl; [by repeat constructor|].
  fold (before y x). destruct (before y x) eqn:E.
  - constructor; [done|]. destruct l as [|z l]; simpl.
    + constructor. by apply before_asym.
    + fold (before z x). destruct (before z x);
        constructor; [by inversion Hhd | by apply before_asym].
  - constructor; [by constructor | by constructor].
Qed.

Lemma sort_sorted l : Sorted (fun a b => before b a = false) (sort l).
Proof.
  induction l as [|x l IH]; simpl; [constructor | by apply sort_insert_sorted].
Qed.

(** *** [extract_title] returns on the documents it can read *)

Lemma forallb_elem_of {A} (f : A -> bool) (xs : list A) x :
  forallb f xs = true -> x ∈ xs -> f x = true.
Proof.
  intros H Hx. apply list_elem_of_In in Hx.
  by apply (proj1 (forallb_forall f xs) H).
Qed.

Lemma title_line_total pn l st :
  line_ok l = true -> exists st', title_line pn l st = Ok st'.
Proof.
  unfold line_ok, title_line. destruct (line_spans l) as [spans|]; [|done].
  intros _. simpl. apply for_each_total. intros s st1 _.
  unfold title_span. cbv zeta. destruct (_ && _); eauto.
Qed.

Lemma title_block_total pn b st :
  block_ok b = true -> exists st', title_block pn b st = Ok st'.
Proof.
  unfold block_ok, title_block. destruct (block_lines b) as [lines|]; [|eauto].
  simpl. intros H. apply for_each_total. intros l st1 Hl.
  apply title_line_total. by eapply forallb_elem_of.
Qed.

Lemma title_page_total doc pn st :
  title_readable doc = true -> pn < min 2 (page_count doc) ->
  exists st', title_page doc pn st = Ok st'.
Proof.
  unfold title_readable, page_count. intros H Hpn.
  destruct (lookup_lt_is_Some_2 doc pn) as [pg Epg]; [lia|].
  assert (page_ok pg = true) as Hpg.
  { eapply forallb_elem_of; [exact H|]. apply elem_of_take. exists pn. split; [done | lia]. }
  unfold title_page, load_page. rewrite Epg. simpl.
  unfold page_ok in Hpg. destruct (get_text_blocks pg) as [blocks|e]; [|done]. simpl.
  apply for_each_total. intros b st1 Hb.
  apply title_block_total. by eapply forallb_elem_of.
Qed.

Lemma title_candidates_total doc :
  title_readable doc = true ->
  title_candidates doc = Ok (candidates_in_order doc).
Proof.
  intros H.
  destruct (for_each_total (seq 0 (min 2 (page_count doc))) (title_page doc) [])
    as [cands E].
  { intros pn st Hpn. apply title_page_total; [done|]. apply elem_of_seq in Hpn. lia. }
  fold (title_candidates doc) in E. rewrite E. f_equal.
  by apply title_candidates_in_order.
Qed.

Lemma forallb_intro {A} (f : A -> bool) (xs : list A) :
  (forall x, x ∈ xs -> f x = true) -> forallb f xs = true.
Proof.
  intros H. apply forallb_forall. intros x Hx. apply H. by apply list_elem_of_In.
Qed.

(** These are the only documents on which [extract_title] returns. *)
Lemma title_candidates_readable doc cands :
  title_candidates doc = Ok cands -> title_readable doc = true.
Proof.
  intros H. apply forallb_intro. intros pg (pn & Epg & Hpn)%elem_of_take.
  destruct (for_each_returns _ _ _ _ H pn) as (s & s' & E).
  { apply elem_of_seq. apply lookup_lt_Some in Epg. unfold page_count. lia. }
  unfold title_page, load_page in E. rewrite Epg in E. simpl in E.
  unfold page_ok. destruct (get_text_blocks pg) as [blocks|e]; [|done]. simpl in E.
  apply forallb_intro. intros b Hb.
  destruct (for_each_returns _ _ _ _ E b Hb) as (s1 & s1' & E1).
  unfold title_block in E1. unfold block_ok.
  destruct (block_lines b) as [lines|]; [|done]. simpl.
  apply forallb_intro. intros l Hl.
  destruct (for_each_returns _ _ _ _ E1 l Hl) as (s2 & s2' & E2).
  unfold title_line in E2. unfold line_ok. by destruct (line_spans l).
Qed.

Lemma extract_title_returns doc :
  (exists t, extract_title doc = Ok t) <-> title_readable doc = true.
Proof.
  split.
  - intros [t H]. unfold extract_title in H.
    destruct (title_candidates doc) as [cands|e] eqn:E; [|done].
    by eapply title_candidates_readable.
  - intros H. unfold extract_title. rewrite (title_candidates_total doc H). simpl.
    destruct (sort _); eauto.
Qed.

Lemma extract_title_first doc cands :
  title_candidates doc = Ok cands ->
  extract_title doc =
    Ok (match first_sorted cands with Some c => cand_text c | None => [] end).
Proof.
  intros E. unfold extract_title. rewrite E. simpl.
  rewrite <- head_sort. by destruct (sort cands).
Qed.

(** C2. On a document it can read (it raises on the others, see
    [extract_title_returns]) [extract_title] collects exactly the spans
    of the first min(2, page_count) pages whose trimmed text has more
    than 10 and fewer than 150 characters and is not all lower case. It
    returns the empty string when there is none, and otherwise the text
    of a candidate of the largest size that is, among these, on the
    earliest page. *)
Theorem extract_title_spec doc :
  title_readable doc = true ->
  exists cands t,
    title_candidates doc = Ok cands /\ extract_title doc = Ok t /\
    (forall c, c ∈ cands <->
       exists page_num s,
         page_num < min 2 (page_count doc) /\ span_at doc page_num s /\
         (10 < length (strip (span_text s)) < 150 /\
          islower (strip (span_text s)) = false) /\
         c = (strip (span_text s), span_size s, page_num)) /\
    (cands = [] -> t = []) /\
    (cands <> [] ->
       exists c, c ∈ cands /\ t = cand_text c /\
         forall c', c' ∈ cands ->
           (cand_size c' <= cand_size c)%Q /\
           ((cand_size c' == cand_size c)%Q -> cand_page c <= cand_page c')).
Proof.
  intros H. pose proof (title_candidates_total doc H) as Ec.
  exists (candidates_in_order doc), (match first_sorted (candidates_in_order doc) with
                                     | Some c => cand_text c | None => [] end).
  split; [done|]. split; [by apply extract_title_first|]. split; [|split].
  - intros c. rewrite elem_of_candidates_in_order.
    split; intros (pn & s & Hpn & Hat & He & ->); exists pn, s;
      (split; [done|]); (split; [done|]); (split; [|done]).
    + unfold eligible in He. rewrite !andb_true_iff, !Nat.ltb_lt, negb_true_iff in He.
      by destruct He as [[? ?] ?].
    + unfold eligible. rewrite !andb_true_iff, !Nat.ltb_lt, negb_true_iff.
      by destruct He as [[? ?] ?].
  - by intros ->.
  - intros Hne. destruct (first_sorted (candidates_in_order doc)) as [c|] eqn:E.
    + apply first_sorted_min in E as [Hc Hmin]. exists c.
      split; [done|]. split; [done|]. intros c' Hc'.
      by apply not_before_spec, Hmin.
    + by apply first_sorted_None in E.
Qed.

Lemma extract_title_spec_witness :
  title_readable report_doc = true /\
  exists c, c ∈ candidates_in_order report_doc /\
            extract_title report_doc = Ok (cand_text c).
Proof.
  split; [reflexivity|].
  destruct (extract_title_spec report_doc eq_refl)
    as (cands & t & Ec & Et & _ & _ & Hbest).
  rewrite (title_candidates_in_order _ _ Ec) in Hbest.
  destruct Hbest as (c & Hc & -> & _); [by vm_compute|]. by exists c.
Defined.

Lemma for_each_ext {A St} (xs : list A) (f g : A -> St -> result St) st :
  (forall x st, x ∈ xs -> f x st = g x st) -> for_each xs f st = for_each xs g st.
Proof.
  revert st. induction xs as [|x xs IH]; intros st H; simpl; [done|].
  rewrite (H x st) by (apply elem_of_cons; by left).
  destruct (g x st) as [st1|e]; simpl; [|done].
  apply IH. intros y s Hy. apply H. apply elem_of_cons. by right.
Qed.

(** Only the first two pages count. *)
Lemma extract_title_take doc : extract_title doc = extract_title (take 2 doc).
Proof.
  unfold extract_title, title_candidates, page_count.
  rewrite length_take, Nat.min_assoc, Nat.min_id.
  f_equal. apply for_each_ext. intros pn st Hpn. apply elem_of_seq in Hpn.
  unfold title_page, load_page. by rewrite lookup_take_lt by lia.
Qed.

(** C9. The candidates are sorted by a stable sort: of the candidates
    that share the largest size and, among these, the earliest page, the
    one met first in reading order gives the title. The title depends on
    the first two pages only. *)
Theorem extract_title_stable doc l1 c l2 :
  title_readable doc = true ->
  candidates_in_order doc = l1 ++ c :: l2 ->
  (forall x, x ∈ l1 ++ l2 -> (cand_size x <= cand_size c)%Q) ->
  (forall x, x ∈ l1 ++ l2 ->
     (cand_size x == cand_size c)%Q -> cand_page c <= cand_page x) ->
  (forall x, x ∈ l1 ->
     ~ ((cand_size x == cand_size c)%Q /\ cand_page x = cand_page c)) ->
  extract_title doc = Ok (cand_text c) /\
  extract_title (take 2 doc) = Ok (cand_text c).
Proof.
  intros Hr Ecands Hsize Hpage Hfirst.
  assert (extract_title doc = Ok (cand_text c)) as E.
  { rewrite (extract_title_first doc _ (title_candidates_total doc Hr)).
    rewrite Ecands, first_sorted_stable; [done | |].
    - intros x Hx. apply before_spec.
      assert (x ∈ l1 ++ l2) as Hx' by (apply elem_of_app; by left).
      pose proof (Hsize x Hx') as Hs. pose proof (Hpage x Hx') as Hp.
      destruct (Qlt_le_dec (cand_size x) (cand_size c)) as [Hlt|Hle]; [by left|].
      assert (cand_size x == cand_size c)%Q as Heq by lra.
      right. split; [lra|]. specialize (Hp Heq).
      destruct (decide (cand_page x = cand_page c)) as [Hpe|Hpe]; [|lia].
      exfalso. by apply (Hfirst x Hx).
    - intros x Hx. apply not_before_spec.
      assert (x ∈ l1 ++ l2) as Hx' by (apply elem_of_app; by right).
      split; [by apply Hsize | by apply Hpage]. }
  split; [done|]. by rewrite <- extract_title_take.
Qed.

Lemma extract_title_stable_witness :
  extract_title tie_doc = Ok (py "Quarterly Review") /\
  extract_title (take 2 tie_doc) = Ok (py "Quarterly Review").
Proof.
  apply (extract_title_stable tie_doc
           [(py "Minutes of the", 12%Q, 0)]
           (py "Quarterly Review", 18%Q, 0)
           [(py "Board Meeting", 18%Q, 0); (py "Executive Summary", 18%Q, 1)]).
  - reflexivity.
  - reflexivity.
  - intros x Hx. repeat (apply elem_of_cons in Hx as [->|Hx]);
      [ .. | by apply elem_of_nil in Hx ]; by vm_compute.
  - intros x Hx _. repeat (apply elem_of_cons in Hx as [->|Hx]);
      [ .. | by apply elem_of_nil in Hx ]; vm_compute; lia.
  - intros x Hx [Hs _]. apply list_elem_of_singleton in Hx as ->. by vm_compute in Hs.
Defined.

Lemma islower_uncased txt : uncased txt = true -> islower txt = false.
Proof.
  unfold islower, uncased. induction txt as [|c txt IH]; simpl; [done|].
  rewrite andb_true_iff, negb_true_iff, orb_false_iff. intros [[-> ->] H].
  simpl. by apply IH.
Qed.

(** C10. A span whose trimmed text has no cased character and 11 to 149
    characters is not "entirely lower case" for [str.islower]: it is a
    title candidate wherever it stands on the first two pages, and it is
    the title of the document that holds nothing else. *)
Theorem uncased_span_is_candidate s :
  uncased (strip (span_text s)) = true ->
  11 <= length (strip (span_text s)) <= 149 ->
  islower (strip (span_text s)) = false /\
  (forall doc page_num,
     title_readable doc = true ->
     page_num < min 2 (page_count doc) -> span_at doc page_num s ->
     exists cands, title_candidates doc = Ok cands /\
                   (strip (span_text s), span_size s, page_num) ∈ cands) /\
  extract_title (single_span_doc s) = Ok (strip (span_text s)).
Proof.
  intros Hu Hlen. pose proof (islower_uncased _ Hu) as Hl.
  assert (eligible (strip (span_text s)) = true) as He.
  { unfold eligible. rewrite Hl, !andb_true_iff, !Nat.ltb_lt. repeat split; lia. }
  split; [done|]. split.
  - intros doc pn Hr Hpn Hat. exists (candidates_in_order doc).
    split; [by apply title_candidates_total|].
    apply elem_of_candidates_in_order. by exists pn, s.
  - rewrite (extract_title_first _ (candidates_in_order (single_span_doc s)))
      by (by apply title_candidates_total).
    unfold candidates_in_order, page_candidates, block_candidates,
      line_candidates, span_candidates. simpl. by rewrite He.
Qed.

Lemma uncased_span_is_candidate_witness :
  islower (strip (span_text digits_span)) = false /\
  extract_title (single_span_doc digits_span) = Ok (py "2024-2025 / 17.03").
Proof.
  destruct (uncased_span_is_candidate digits_span) as (Hl & _ & Ht);
    [reflexivity | vm_compute; lia |].
  split; [exact Hl | exact Ht].
Defined.

(** ** The outline *)

(** A loop whose body folds a pure step over what each iteration yields
    folds that step over everything yielded. *)
Lemma for_each_folds {A B St} (step : St -> B -> St) (f : A -> list B)
    (xs : list A) (body : A -> St -> result St) st st' :
  (forall x st st', x ∈ xs -> body x st = Ok st' -> st' = foldl step st (f x)) ->
  for_each xs body st = Ok st' -> st' = foldl step st (flat_map f xs).
Proof.
  revert st. induction xs as [|x xs IH]; intros st Hb; simpl.
  - by intros [= <-].
  - destruct (body x st) as [st1|e] eqn:E; simpl; [|done].
    intros H. rewrite foldl_app.
    rewrite <- (Hb x st st1) by (done || (apply elem_of_cons; by left)).
    apply IH; [|done]. intros y s s' Hy. apply Hb. apply elem_of_cons. by right.
Qed.

Lemma line_at_in_order doc page_num l :
  line_at doc page_num l -> (page_num, full_line_of l) ∈ lines_in_order doc.
Proof.
  intros (pg & blocks & b & lines & Ed & Eg & Hb & Eb & Hl).
  unfold lines_in_order. apply elem_of_flat_map. exists page_num. split.
  - apply elem_of_seq. apply lookup_lt_Some in Ed. unfold page_count. lia.
  - unfold page_texts. rewrite Ed. destruct pg as [g]. simpl in Eg. subst g.
    apply elem_of_flat_map. exists b. split; [done|].
    unfold block_texts. rewrite Eb. apply elem_of_flat_map. exists l.
    split; [done|]. by apply list_elem_of_singleton.
Qed.

Lemma lines_in_order_page doc page_num fl :
  (page_num, fl) ∈ page_texts doc page_num ->
  exists l, line_at doc page_num l /\ fl = full_line_of l.
Proof.
  unfold page_texts. intros H.
  destruct (doc !! page_num) as [[[blocks|e]]|] eqn:Ed; try by apply elem_of_nil in H.
  apply elem_of_flat_map in H as (b & Hb & H).
  unfold block_texts in H. apply elem_of_flat_map in H as (l & Hl & H).
  apply list_elem_of_singleton in H as [= ->].
  destruct (block_lines b) as [lines|] eqn:Eb; [|by apply elem_of_nil in Hl].
  exists l. split; [|done].
  by exists {| get_text_blocks := Ok blocks |}, blocks, b, lines.
Qed.

Lemma page_texts_fst doc page_num p : p ∈ page_texts doc page_num -> p.1 = page_num.
Proof.
  unfold page_texts. intros H.
  destruct (doc !! page_num) as [[[blocks|e]]|]; try by apply elem_of_nil in H.
  apply elem_of_flat_map in H as (b & _ & H).
  apply elem_of_flat_map in H as (l & _ & H).
  by apply list_elem_of_singleton in H as ->.
Qed.

Lemma outline_block_folds pn b st st' :
  outline_block pn b st = Ok st' -> st' = foldl outline_step st (block_texts pn b).
Proof.
  unfold outline_block, block_texts. apply for_each_folds.
  intros l s s' _. unfold outline_line. by intros [= <-].
Qed.

Lemma outline_page_folds doc pn st st' :
  outline_page doc pn st = Ok st' -> st' = foldl outline_step st (page_texts doc pn).
Proof.
  unfold outline_page, page_texts, load_page.
  destruct (doc !! pn) as [[[blocks|e]]|]; simpl; try done.
  apply for_each_folds. intros b s s' _. apply outline_block_folds.
Qed.

Lemma extract_outline_folds doc outline :
  extract_outline doc = Ok outline ->
  outline = (build_outline (lines_in_order doc)).1.
Proof.
  unfold extract_outline.
  destruct (for_each _ _ _) as [st|e] eqn:E; simpl; [|done]. intros [= <-].
  f_equal. revert E. apply for_each_folds.
  intros pn s s' _. apply outline_page_folds.
Qed.

(** *** [extract_outline] returns on the documents it can read *)

Lemma extract_outline_total doc :
  outline_readable doc = true ->
  extract_outline doc = Ok (build_outline (lines_in_order doc)).1.
Proof.
  intros H.
  destruct (for_each_total (seq 0 (page_count doc)) (outline_page doc) ([], ∅))
    as [st E].
  { intros pn st Hpn. apply elem_of_seq in Hpn.
    destruct (lookup_lt_is_Some_2 doc pn) as [pg Epg]; [unfold page_count in Hpn; lia|].
    unfold outline_page, load_page. rewrite Epg. simpl.
    pose proof (forallb_elem_of _ _ pg H (list_elem_of_lookup_2 _ _ _ Epg)) as Hpg.
    simpl in Hpg. destruct (get_text_blocks pg) as [blocks|e]; [|done]. simpl.
    apply for_each_total. intros b st1 _. unfold outline_block.
    apply for_each_total. intros l st2 _. unfold outline_line. eauto. }
  assert (extract_outline doc = Ok st.1) as Eo.
  { unfold extract_outline. by rewrite E. }
  rewrite Eo. f_equal. by apply extract_outline_folds.
Qed.

Lemma extract_outline_returns doc :
  (exists outline, extract_outline doc = Ok outline) <-> outline_readable doc = true.
Proof.
  split; [|intros H; rewrite (extract_outline_total doc H); eauto].
  intros [o H]. unfold extract_outline in H.
  destruct (for_each _ _ _) as [st|e] eqn:E; [|done].
  apply forallb_intro. intros pg (pn & Epg)%list_elem_of_lookup_1.
  destruct (for_each_returns _ _ _ _ E pn) as (s & s' & E1).
  { apply elem_of_seq. apply lookup_lt_Some in Epg. unfold page_count. lia. }
  unfold outline_page, load_page in E1. rewrite Epg in E1. simpl in E1.
  by destruct (get_text_blocks pg).
Qed.

(** *** What the loop maintains *)

Lemma is_heading_empty : is_heading [] = None.
Proof. by vm_compute. Qed.

Lemma outline_text_cases pn fl st :
  outline_text pn fl st =
    match is_heading fl with
    | Some lv =>
        if bool_decide ((lower fl, pn) ∉ st.2)
        then (st.1 ++ [ {| entry_level := lv; entry_text := fl; entry_page := pn + 1 |} ],
              {[ (lower fl, pn) ]} ∪ st.2)
        else st
    | None => st
    end.
Proof. destruct fl as [|c fl]; [by rewrite is_heading_empty | done]. Qed.

Lemma outline_inv_init : outline_inv ([], ∅) [].
Proof.
  split; simpl.
  - constructor.
  - intros txt pn. split; [by intros H%elem_of_empty | by intros H%elem_of_nil].
  - constructor.
  - intros p H. by apply elem_of_nil in H.
Qed.

Lemma outline_step_inv st done p :
  outline_inv st done -> outline_inv (outline_step st p) (done ++ [p]).
Proof.
  intros [Hnd Hseen Hord Hall]. destruct p as [pn fl].
  unfold outline_step. simpl. rewrite outline_text_cases.
  assert (omap entry_of (done ++ [(pn, fl)]) =
          omap entry_of done ++ match is_heading fl with
                                | Some lv => [ {| entry_level := lv; entry_text := fl;
                                                  entry_page := pn + 1 |} ]
                                | None => []
                                end) as Eo.
  { rewrite omap_app. f_equal. unfold entry_of. simpl. by destruct (is_heading fl). }
  destruct (is_heading fl) as [lv|] eqn:Eh.
  - case_bool_decide as Hkey.
    + split; simpl.
      * rewrite fmap_app. apply NoDup_app. split; [done|]. split.
        -- intros k Hk Hk'. apply list_elem_of_singleton in Hk'. subst k.
           apply Hkey. by apply Hseen.
        -- apply NoDup_singleton.
      * intros txt q. rewrite fmap_app, elem_of_union, elem_of_app, Hseen.
        rewrite elem_of_singleton. simpl. rewrite list_elem_of_singleton.
        unfold entry_key at 2. simpl. split.
        -- intros [H|H]; [right | by left]. by injection H as -> ->.
        -- intros [H|H]; [by right | left]. injection H as -> Hq. f_equal. lia.
      * rewrite Eo. by apply sublist_app.
      * intros p [Hp|Hp]%elem_of_app Hh.
        -- apply elem_of_union. right. by apply Hall.
        -- apply list_elem_of_singleton in Hp as ->. apply elem_of_union. left.
           by apply elem_of_singleton.
    + split; try done.
      * rewrite Eo. by apply sublist_inserts_r.
      * intros p [Hp|Hp]%elem_of_app Hh; [by apply Hall|].
        apply list_elem_of_singleton in Hp as ->. exact Hkey.
  - split; try done.
    + rewrite Eo. by rewrite app_nil_r.
    + intros p [Hp|Hp]%elem_of_app Hh; [by apply Hall|].
      apply list_elem_of_singleton in Hp as ->. simpl in Hh. congruence.
Qed.

Lemma outline_fold_inv ls st done :
  outline_inv st done -> outline_inv (foldl outline_step st ls) (done ++ ls).
Proof.
  revert st done. induction ls as [|p ls IH]; intros st done H; simpl.
  - by rewrite app_nil_r.
  - replace (done ++ p :: ls) with ((done ++ [p]) ++ ls) by (by rewrite <- app_assoc).
    apply IH. by apply outline_step_inv.
Qed.

Lemma build_outline_inv ls : outline_inv (build_outline ls) ls.
Proof. apply (outline_fold_inv ls ([], ∅) []), outline_inv_init. Qed.

(** *** Reading order *)

Lemma sublist_StronglySorted {A} (R : relation A) (l k : list A) :
  l `sublist_of` k -> StronglySorted R k -> StronglySorted R l.
Proof.
  induction 1 as [|x l k Hs IH|x l k Hs IH]; intros Hk; [done| |].
  - apply StronglySorted_cons in Hk as [Hx Hk]. apply StronglySorted_cons.
    split; [|by apply IH]. rewrite Forall_forall in Hx |- *.
    intros y Hy. apply Hx. by eapply elem_of_sublist.
  - apply StronglySorted_cons in Hk as [_ Hk]. by apply IH.
Qed.

Lemma same_page_sorted (q : nat) (l : list entry) :
  (forall e, e ∈ l -> entry_page e = q) -> StronglySorted page_le l.
Proof.
  induction l as [|x l IH]; intros H; [constructor|].
  apply StronglySorted_cons. split.
  - apply Forall_forall. intros y Hy. unfold page_le.
    rewrite (H x), (H y); [done | | ]; apply elem_of_cons; auto.
  - apply IH. intros e He. apply H. apply elem_of_cons. by right.
Qed.

Lemma entry_of_page p e : entry_of p = Some e -> entry_page e = p.1 + 1.
Proof. unfold entry_of. destruct (is_heading p.2); [|done]. by intros [= <-]. Qed.

Lemma entries_from_sorted doc start len :
  StronglySorted page_le
    (omap entry_of (flat_map (page_texts doc) (seq start len))) /\
  forall e, e ∈ omap entry_of (flat_map (page_texts doc) (seq start len)) ->
            start + 1 <= entry_page e.
Proof.
  revert start. induction len as [|len IH]; intros start; simpl.
  - split; [constructor|]. intros e H. by apply elem_of_nil in H.
  - destruct (IH (S start)) as [Hs Hge]. rewrite omap_app.
    assert (forall e, e ∈ omap entry_of (page_texts doc start) ->
                      entry_page e = start + 1) as Hhere.
    { intros e (p & Hp & He)%list_elem_of_omap.
      rewrite (entry_of_page _ _ He). by rewrite (page_texts_fst _ _ _ Hp). }
    split.
    + apply StronglySorted_app_2; [|by eapply same_page_sorted | done].
      intros e1 e2 H1 H2. unfold page_le.
      rewrite (Hhere e1 H1). specialize (Hge e2 H2). lia.
    + intros e [H|H]%elem_of_app; [rewrite (Hhere e H); lia|].
      specialize (Hge e H). lia.
Qed.

(** C1. On a document it can read (it raises on the others, see
    [extract_outline_returns]) [extract_outline] gives an outline that
    never holds two entries with the same (lower-cased text, page) pair,
    and where every heading line of a page has an entry with its
    lower-cased text on that page: a repeat on the same page, in whatever
    case, is suppressed, and the same text on another page has an entry
    of its own. *)
Theorem extract_outline_no_duplicates doc :
  outline_readable doc = true ->
  exists outline,
    extract_outline doc = Ok outline /\
    NoDup (entry_key <$> outline) /\
    (forall page_num l,
       line_at doc page_num l -> is_heading (full_line_of l) <> None ->
       (lower (full_line_of l), page_num + 1) ∈ entry_key <$> outline).
Proof.
  intros H. exists (build_outline (lines_in_order doc)).1.
  destruct (build_outline_inv (lines_in_order doc)) as [Hnd Hseen _ Hall].
  split; [by apply extract_outline_total|]. split; [done|].
  intros pn l Hat Hh. apply Hseen.
  apply (Hall (pn, full_line_of l)); [|done]. by apply line_at_in_order.
Qed.

Lemma extract_outline_no_duplicates_witness :
  extract_outline conclusion_doc =
    Ok [ {| entry_level := H1; entry_text := py "CONCLUSION"; entry_page := 4 |};
         {| entry_level := H1; entry_text := py "CONCLUSION"; entry_page := 9 |} ] /\
  NoDup [ (py "conclusion", 4); (py "conclusion", 9) ].
Proof.
  destruct (extract_outline_no_duplicates conclusion_doc eq_refl)
    as (outline & E & Hnd & _).
  vm_compute in E. injection E as <-. split; [by vm_compute | exact Hnd].
Defined.

(** C3. The outline of a readable document is a subsequence of the
    heading lines in reading order (pages in ascending order and, in a
    page, blocks and lines as the adapter gives them), so its page
    numbers never decrease: nothing is sorted again afterwards. *)
Theorem extract_outline_reading_order doc :
  outline_readable doc = true ->
  exists outline,
    extract_outline doc = Ok outline /\
    StronglySorted le (entry_page <$> outline) /\
    outline `sublist_of` omap entry_of (lines_in_order doc).
Proof.
  intros H. exists (build_outline (lines_in_order doc)).1.
  destruct (build_outline_inv (lines_in_order doc)) as [_ _ Hord _].
  split; [by apply extract_outline_total|]. split; [|done].
  apply (StronglySorted_fmap _ page_le); [done|].
  eapply sublist_StronglySorted; [exact Hord|].
  apply (entries_from_sorted doc 0 (page_count doc)).
Qed.

Lemma extract_outline_reading_order_witness :
  extract_outline ordered_doc =
    Ok [ {| entry_level := H2; entry_text := py "2.1 Scope"; entry_page := 1 |};
         {| entry_level := H1; entry_text := py "INTRODUCTION"; entry_page := 1 |};
         {| entry_level := H3; entry_text := py "(3) Details"; entry_page := 3 |};
         {| entry_level := H2; entry_text := py "1.1 Aims"; entry_page := 3 |} ] /\
  StronglySorted le [1; 1; 3; 3].
Proof.
  destruct (extract_outline_reading_order ordered_doc eq_refl)
    as (outline & E & Hs & _).
  vm_compute in E. injection E as <-. split; [by vm_compute | exact Hs].
Defined.

(** ** The document processor *)

Section Processor.

Variable fitz_open : Path -> result document.

Lemma extract_structure_ok pdf_path doc t o :
  fitz_open pdf_path = Ok doc -> extract_title doc = Ok t ->
  extract_outline doc = Ok o ->
  extract_structure fitz_open pdf_path = {| title := t; outline := o |}.
Proof.
  intros Ed Et Eo. unfold extract_structure, try_extract.
  rewrite Ed. simpl. rewrite Et. simpl. by rewrite Eo.
Qed.

(** C8. Whatever exception is raised while the document is opened or
    while its title or its outline is extracted, [extract_structure]
    returns: the title is the stem of the file name and the outline is
    empty. *)
Theorem extract_structure_degrades pdf_path :
  (exists e, fitz_open pdf_path = Raise e) \/
  (exists doc e, fitz_open pdf_path = Ok doc /\
     (extract_title doc = Raise e \/ extract_outline doc = Raise e)) ->
  extract_structure fitz_open pdf_path =
    {| title := path_stem pdf_path; outline := [] |}.
Proof.
  unfold extract_structure, try_extract.
  intros [[e E] | (doc & e & Ed & [E|E])].
  - by rewrite E.
  - rewrite Ed. simpl. by rewrite E.
  - rewrite Ed. simpl. destruct (extract_title doc) as [t|e']; simpl; [|done].
    by rewrite E.
Qed.

End Processor.

Lemma extract_structure_degrades_witness :
  extract_structure unreadable broken_pdf = {| title := py "broken"; outline := [] |}.
Proof.
  apply (extract_structure_degrades unreadable broken_pdf).
  left. by eexists.
Defined.

Example extract_title_spanless :
  extract_title spanless_doc = Raise (KeyError "spans") /\
  extract_outline spanless_doc = Ok [] /\
  extract_structure (fun _ => Ok spanless_doc) broken_pdf =
    {| title := py "broken"; outline := [] |}.
Proof. by vm_compute. Qed.

(** * Further properties of the classifier *)

(** X1. Blanks before and after a text never change its classification,
    and a text of blanks only is no heading. *)
Theorem is_heading_padding (ws1 text ws2 : str) :
  all_space ws1 -> all_space ws2 ->
  is_heading (ws1 ++ text ++ ws2) = is_heading text /\
  is_heading (ws1 ++ ws2) = None.
Proof.
  intros H1 H2. split.
  - unfold is_heading. by rewrite strip_pad.
  - pose proof (strip_pad ws1 [] ws2 H1 H2) as E. simpl in E.
    unfold is_heading. rewrite E. by vm_compute.
Qed.

Lemma is_heading_padding_witness :
  is_heading (py "   " ++ py "1.2 Background" ++ [" "; "009"]%char)
    = is_heading (py "1.2 Background") /\
  is_heading (py "   " ++ [" "; "009"]%char) = None.
Proof. apply is_heading_padding; by repeat constructor. Defined.

(** ** First characters that exclude the numbered patterns *)

Lemma no_paren_match (t : str) :
  head t <> Some "("%char ->
  re_match h3_paren t = false /\ re_match h2_paren_letter t = false.
Proof.
  intros Hh. split.
  - destruct (re_match h3_paren t) eqn:E; [|done].
    destruct (h3_paren_head _ E) as (c & r & -> & _). by destruct Hh.
  - destruct (re_match h2_paren_letter t) eqn:E; [|done].
    destruct (h2_paren_letter_head _ E) as (c & r & -> & _). by destruct Hh.
Qed.

Lemma h2_letter_shape (s : str) :
  re_match h2_letter s = true ->
  exists c r, s = c :: ")"%char :: r /\ mem (Range "a" "z") c = true.
Proof.
  destruct s as [|c [|c2 r]]; unfold re_match, h2_letter; cbn [run];
    rewrite ?andb_false_r; try done.
  intros [Hc [Hp _]%andb_prop]%andb_prop. simpl in Hp.
  apply bool_decide_eq_true in Hp as ->. eauto.
Qed.

Lemma no_decimal_head_match (t : str) :
  (forall c r, t = c :: r -> isdecimal c = false) ->
  re_match h3_numeric t = false /\ re_match h2_numeric t = false.
Proof.
  intros Hh. split.
  - destruct (re_match h3_numeric t) eqn:E; [|done].
    destruct (h3_numeric_head _ E) as (c & r & -> & Hc).
    rewrite (Hh c r eq_refl) in Hc. done.
  - destruct (re_match h2_numeric t) eqn:E; [|done].
    destruct (h2_numeric_head _ E) as (c & r & -> & Hc).
    rewrite (Hh c r eq_refl) in Hc. done.
Qed.

(** A text matched by [^\d+\.\d+] has a dot after its leading digits. *)
Lemma h2_numeric_dot (t : str) :
  re_match h2_numeric t = true ->
  exists ds rest, t = ds ++ "."%char :: rest /\ ds <> [] /\
                  Forall (fun c => isdecimal c = true) ds.
Proof.
  rewrite re_match_spec. intros (w & rest & -> & L). unfold h2_numeric in L.
  inversion L as [| |? ? w1 x1 L1 Lx1| |]; subst.
  inversion Lx1 as [| |? ? w2 x2 L2 Lx2| |]; subst.
  inversion L1 as [|? ? ? Hn Hw| | |]; subst.
  inversion L2 as [? c Hc| | | |]; subst. simpl in Hc.
  apply bool_decide_eq_true in Hc as ->.
  exists w1, (x2 ++ rest). split; [by rewrite <- !app_assoc|]. split; [|done].
  intros ->. simpl in Hn. lia.
Qed.

Lemma h3_numeric_dot (t : str) :
  re_match h3_numeric t = true ->
  exists ds rest, t = ds ++ "."%char :: rest /\ ds <> [] /\
                  Forall (fun c => isdecimal c = true) ds.
Proof.
  rewrite re_match_spec. intros (w & rest & -> & L). unfold h3_numeric in L.
  inversion L as [| |? ? w1 x1 L1 Lx1| |]; subst.
  inversion Lx1 as [| |? ? w2 x2 L2 Lx2| |]; subst.
  inversion L1 as [|? ? ? Hn Hw| | |]; subst.
  inversion L2 as [? c Hc| | | |]; subst. simpl in Hc.
  apply bool_decide_eq_true in Hc as ->.
  exists w1, (x2 ++ rest). split; [by rewrite <- !app_assoc|]. split; [|done].
  intros ->. simpl in Hn. lia.
Qed.

(** The numeric patterns need a digit or a dot in second place. *)
Lemma no_numeric_second (c c2 : ascii) (r : str) :
  isdecimal c2 = false -> c2 <> "."%char ->
  re_match h3_numeric (c :: c2 :: r) = false /\
  re_match h2_numeric (c :: c2 :: r) = false.
Proof.
  intros Hd Hp.
  assert (forall ds rest, c :: c2 :: r = ds ++ "."%char :: rest -> ds <> [] ->
            Forall (fun c => isdecimal c = true) ds -> False) as Hno.
  { intros [|d [|d2 ds]] rest E Hne Hds; [done| |].
    - injection E as _ E _. by subst.
    - injection E as _ E _. subst. inversion Hds as [|? ? _ Hds']; subst.
      inversion Hds' as [|? ? Hc _]; subst. congruence. }
  split.
  - destruct (re_match h3_numeric _) eqn:E; [|done].
    destruct (h3_numeric_dot _ E) as (ds & rest & Et & Hne & Hds). by destruct (Hno ds rest).
  - destruct (re_match h2_numeric _) eqn:E; [|done].
    destruct (h2_numeric_dot _ E) as (ds & rest & Et & Hne & Hds). by destruct (Hno ds rest).
Qed.

Lemma all_decimal_no_numeric (t : str) :
  all_decimal t = true ->
  re_match h3_numeric t = false /\ re_match h2_numeric t = false.
Proof.
  intros H.
  assert (forall ds rest, t = ds ++ "."%char :: rest -> False) as Hno.
  { intros ds rest ->. unfold all_decimal in H.
    rewrite forallb_app in H. apply andb_prop in H as [_ H]. by simpl in H. }
  split.
  - destruct (re_match h3_numeric t) eqn:E; [|done].
    destruct (h3_numeric_dot _ E) as (ds & rest & Et & _). by destruct (Hno ds rest).
  - destruct (re_match h2_numeric t) eqn:E; [|done].
    destruct (h2_numeric_dot _ E) as (ds & rest & Et & _). by destruct (Hno ds rest).
Qed.

Lemma no_letter_match (t : str) :
  (forall c r, t = c :: ")"%char :: r -> mem (Range "a" "z") c = false) ->
  re_match h2_letter t = false.
Proof.
  intros Hh. destruct (re_match h2_letter t) eqn:E; [|done].
  destruct (h2_letter_shape _ E) as (c & r & -> & Hc).
  rewrite (Hh c r eq_refl) in Hc. done.
Qed.

(** What the first characters of a text matched by an H1 pattern are: a
    capital A-Z, or a digit followed by white space. *)
Lemma roman_upper c : mem roman c = true -> mem upper_AZ c = true.
Proof. char_cases c. Qed.

Lemma h1_match_head (t : str) :
  any_match h1_patterns t = true ->
  exists c r, t = c :: r /\
    (mem upper_AZ c = true \/
     (isdecimal c = true /\ exists c2 r', r = c2 :: r' /\ isspace c2 = true)).
Proof.
  destruct t as [|c r]; [done|]. intros H. exists c, r. split; [done|]. revert H.
  unfold any_match, h1_patterns, re_match, h1_caps_roman_digit, h1_chapter, h1_appendix.
  cbn [existsb run literal py list_ascii_of_string many pred].
  intros [[H|[[[H _]%andb_prop|[H _]%andb_prop]%orb_prop|H]%orb_prop]%orb_prop|
          [H|[H|H]%orb_prop]%orb_prop]%orb_prop; try done.
  - apply andb_prop in H as [H _]. by left.
  - left. by apply roman_upper.
  - apply andb_prop in H as [H1 H2]. right. split.
    + revert H1. clear. char_cases c.
    + destruct r as [|c2 r']; [done|]. apply andb_prop in H2 as [H2 _]. eauto.
  - apply andb_prop in H as [H _]. simpl in H.
    apply bool_decide_eq_true in H as ->. by left.
  - apply andb_prop in H as [H _]. simpl in H.
    apply bool_decide_eq_true in H as ->. by left.
Qed.

Ltac char_facts c :=
  destruct c as [[] [] [] [] [] [] [] []]; vm_compute; intros; repeat split; congruence.

Lemma lower_az_facts c :
  mem (Range "a" "z") (char_lower c) = true ->
  isdecimal c = false /\ c <> "("%char /\ c <> ")"%char.
Proof. char_facts c. Qed.

Lemma islower_facts c :
  char_islower c = true ->
  isdecimal c = false /\ c <> "("%char /\ mem upper_AZ c = false.
Proof. char_facts c. Qed.

Lemma decimal_facts c :
  isdecimal c = true ->
  c <> "("%char /\ mem (Range "a" "z") c = false /\ mem upper_AZ c = false /\
  isspace c = false /\ char_islower c = false /\ char_isupper c = false /\
  mem (Range "a" "z") (char_lower c) = false.
Proof. char_facts c. Qed.

Lemma upper_AZ_facts c :
  mem upper_AZ c = true ->
  isdecimal c = false /\ c <> "("%char /\ mem (Range "a" "z") c = false.
Proof. char_facts c. Qed.

Lemma space_facts c :
  isspace c = true -> isdecimal c = false /\ c <> "."%char.
Proof. char_facts c. Qed.

Lemma split_from_length (cur s : str) :
  length (split_from cur s) <= length s + match cur with [] => 0 | _ => 1 end.
Proof.
  revert cur. induction s as [|c s IH]; intros cur; simpl.
  - destruct cur; simpl; lia.
  - destruct (isspace c).
    + destruct cur; simpl; specialize (IH []); simpl in IH; lia.
    + specialize (IH (cur ++ [c])). destruct cur; simpl in *; lia.
Qed.

(** A text has at most as many words as characters. *)
Lemma split_length (s : str) : length (split s) <= length s.
Proof. pose proof (split_from_length [] s) as H. simpl in H. unfold split. lia. Qed.

(** Every keyword starts with two lower-case letters and has at most 17
    characters. *)
Lemma keyword_shape (kw : str) :
  kw ∈ heading_keywords ->
  exists k1 k2 r, kw = k1 :: k2 :: r /\ length kw <= 17 /\
    mem (Range "a" "z") k1 = true /\ mem (Range "a" "z") k2 = true.
Proof.
  unfold heading_keywords. rewrite elem_of_list_to_set. simpl.
  intros H. repeat (apply elem_of_cons in H as [->|H]);
    [ .. | by apply elem_of_nil in H ];
    eexists _, _, _; (split; [reflexivity|]); vm_compute; repeat split; lia.
Qed.

Lemma all_decimal_isupper (t : str) : all_decimal t = true -> isupper t = false.
Proof.
  unfold isupper, all_decimal. induction t as [|c t IH]; simpl; [done|].
  intros [Hc Ht]%andb_prop.
  destruct (decimal_facts c Hc) as (_ & _ & _ & _ & -> & -> & _). by apply IH.
Qed.

(** X2. A text that is, once trimmed and in whatever case, one of the ten
    keywords is an H1. *)
Theorem is_heading_keyword text :
  lower (strip text) ∈ heading_keywords -> is_heading text = Some H1.
Proof.
  intros Hk. destruct (keyword_shape _ Hk) as (k1 & k2 & kr & Ek & Hlen & H1 & H2).
  assert (length (strip text) <= 17) as Hl.
  { unfold lower in Hlen. by rewrite length_map in Hlen. }
  rewrite is_heading_open;
    [| rewrite <- split_strip; pose proof (split_length (strip text)); lia | lia].
  cbv zeta. destruct (strip text) as [|c1 [|c2 r]] eqn:Et; try done.
  injection Ek as E1 E2 _. rewrite <- E1 in H1. rewrite <- E2 in H2.
  destruct (lower_az_facts c1 H1) as (Hd1 & Hp1 & _).
  destruct (lower_az_facts c2 H2) as (_ & _ & Hq2).
  rewrite no_h3_match, no_h2_match.
  - destruct (any_match h1_patterns _); [done|].
    by rewrite bool_decide_eq_true_2.
  - apply no_decimal_head_match. by intros ? ? [= <- _].
  - apply no_paren_match. simpl. by intros [= ->].
  - apply no_letter_match. intros ? ? [= _ E _]. by destruct Hq2.
  - apply no_decimal_head_match. by intros ? ? [= <- _].
  - apply no_paren_match. simpl. by intros [= ->].
Qed.

Lemma is_heading_keyword_witness :
  is_heading (py "  Table Of CONTENTS ") = Some H1.
Proof. apply is_heading_keyword. by vm_compute. Defined.

(** X3. A text that passes the gate and whose trimmed form matches one
    of the H1 patterns (capitals run, Roman numeral or digit 1-9 followed
    by white space, "Chapter <digits>", "Appendix <capital or digit>") is
    an H1: no H2 or H3 pattern matches such a text. *)
Theorem is_heading_h1_pattern text :
  length (split text) <= 20 -> length (strip text) <= 150 ->
  any_match h1_patterns (strip text) = true ->
  is_heading text = Some H1.
Proof.
  intros Hw Hl H. rewrite is_heading_open by done. cbv zeta.
  destruct (h1_match_head _ H) as (c & r & Et & Hc). rewrite H.
  assert (any_match h3_patterns (strip text) = false /\
          any_match h2_patterns (strip text) = false) as [-> ->]; [|done].
  rewrite Et. destruct Hc as [Hc | (Hc & c2 & r' & -> & Hs)].
  - destruct (upper_AZ_facts c Hc) as (Hd & Hp & Haz).
    split; [apply no_h3_match | apply no_h2_match].
    + apply no_decimal_head_match. by intros ? ? [= <- _].
    + apply no_paren_match. simpl. by intros [= ->].
    + apply no_decimal_head_match. by intros ? ? [= <- _].
    + apply no_paren_match. simpl. by intros [= ->].
    + apply no_letter_match. by intros ? ? [= <- _].
  - destruct (decimal_facts c Hc) as (Hp & Haz & _).
    destruct (space_facts c2 Hs) as (Hd2 & Hdot).
    split; [apply no_h3_match | apply no_h2_match].
    + by apply no_numeric_second.
    + apply no_paren_match. simpl. by intros [= ->].
    + by apply no_numeric_second.
    + apply no_paren_match. simpl. by intros [= ->].
    + apply no_letter_match. by intros ? ? [= <- _].
Qed.

Lemma is_heading_h1_pattern_witness :
  is_heading (py "Chapter 12 the road") = Some H1 /\
  is_heading (py "IV results") = Some H1 /\
  is_heading (py "3 Methods") = Some H1 /\
  is_heading (py "Appendix B tables") = Some H1.
Proof.
  split; [|split; [|split]]; apply is_heading_h1_pattern; vm_compute; (done || lia).
Defined.

(** X4. A text whose trimmed form starts with a lower-case letter is no
    heading, unless it is a keyword or starts as [a)]. *)
Theorem is_heading_lowercase_start text c r :
  strip text = c :: r -> char_islower c = true -> head r <> Some ")"%char ->
  lower (strip text) ∉ heading_keywords ->
  is_heading text = None.
Proof.
  intros Et Hc Hr Hk. unfold is_heading. cbv zeta.
  destruct (_ || _); [done|].
  rewrite bool_decide_eq_false_2 by done. rewrite Et in *.
  destruct (islower_facts c Hc) as (Hd & Hp & Hu).
  rewrite no_h3_match, no_h2_match.
  - destruct (any_match h1_patterns (c :: r)) eqn:E1.
    + destruct (h1_match_head _ E1) as (c' & r' & [= <- <-] & [H|[H _]]); congruence.
    + simpl. unfold isupper. simpl. by rewrite Hc.
  - apply no_decimal_head_match. by intros ? ? [= <- _].
  - apply no_paren_match. simpl. by intros [= ->].
  - apply no_letter_match. intros c' r' [= <- ->]. by destruct Hr.
  - apply no_decimal_head_match. by intros ? ? [= <- _].
  - apply no_paren_match. simpl. by intros [= ->].
Qed.

Lemma is_heading_lowercase_start_witness :
  is_heading (py "see Chapter 3 for the DETAILS") = None.
Proof.
  apply (is_heading_lowercase_start _ "s"%char (py "ee Chapter 3 for the DETAILS"));
    by vm_compute.
Defined.

(** X5. A line of decimal digits only, such as a page number, is no
    heading. *)
Theorem is_heading_digits text :
  all_decimal (strip text) = true -> is_heading text = None.
Proof.
  intros Hd. unfold is_heading. cbv zeta. destruct (_ || _); [done|].
  assert (forall c r, strip text = c :: r -> isdecimal c = true) as Hhead.
  { intros c r E. rewrite E in Hd. by apply andb_prop in Hd as [Hc _]. }
  destruct (all_decimal_no_numeric _ Hd) as [E3 E2].
  assert (head (strip text) <> Some "("%char) as Hp.
  { destruct (strip text) as [|c r] eqn:E; [done|]. simpl. intros [= ->].
    by specialize (Hhead _ _ eq_refl). }
  destruct (no_paren_match _ Hp) as [E3p E2p].
  rewrite no_h3_match, no_h2_match; try done.
  - destruct (any_match h1_patterns (strip text)) eqn:E1.
    + destruct (h1_match_head _ E1) as (c & r & Et & [H|(_ & c2 & r' & -> & Hs)]).
      * destruct (decimal_facts c (Hhead _ _ Et)) as (_ & _ & Hu & _). congruence.
      * rewrite Et in Hd. simpl in Hd.
        apply andb_prop in Hd as [_ [H2 _]%andb_prop].
        destruct (decimal_facts c2 H2) as (_ & _ & _ & Hns & _). congruence.
    + rewrite (all_decimal_isupper _ Hd), orb_false_r.
      rewrite bool_decide_eq_false_2; [done|]. intros Hk.
      destruct (keyword_shape _ Hk) as (k1 & k2 & kr & Ek & _ & H1 & _).
      destruct (strip text) as [|c r] eqn:Et; [done|].
      injection Ek as E _. rewrite <- E in H1.
      destruct (decimal_facts c (Hhead _ _ eq_refl)) as (_ & _ & _ & _ & _ & _ & Hl).
      congruence.
  - apply no_letter_match. intros c r Et.
    by destruct (decimal_facts c (Hhead _ _ Et)) as (_ & ? & _).
Qed.

Lemma is_heading_digits_witness : is_heading (py " 2024 ") = None.
Proof. apply is_heading_digits. by vm_compute. Defined.

(** X15. Only numbered or lettered items get a level below H1: a text
    classified H2 or H3 starts, once trimmed, with a decimal digit, with
    an opening parenthesis, or with a lower-case letter and a closing
    parenthesis. *)
Theorem is_heading_sublevel text lv :
  is_heading text = Some lv -> lv <> H1 ->
  exists c r, strip text = c :: r /\
    (isdecimal c = true \/ c = "("%char \/
     (mem (Range "a" "z") c = true /\ head r = Some ")"%char)).
Proof.
  unfold is_heading. cbv zeta. destruct (_ || _); [done|].
  unfold any_match at 1 2, h3_patterns, h2_patterns. cbn [existsb].
  destruct (re_match h3_numeric (strip text)) eqn:E3n.
  { intros _ _. destruct (h3_numeric_head _ E3n) as (c & r & -> & Hc). eauto. }
  destruct (re_match h3_paren (strip text)) eqn:E3p.
  { intros _ _. destruct (h3_paren_head _ E3p) as (c & r & -> & Hc). eauto 7. }
  destruct (re_match h2_numeric (strip text)) eqn:E2n.
  { intros _ _. destruct (h2_numeric_head _ E2n) as (c & r & -> & Hc). eauto. }
  destruct (re_match h2_paren_letter (strip text)) eqn:E2p.
  { intros _ _. destruct (h2_paren_letter_head _ E2p) as (c & r & -> & Hc). eauto 7. }
  destruct (re_match h2_letter (strip text)) eqn:E2l.
  { intros _ _. destruct (h2_letter_shape _ E2l) as (c & r & -> & Hc). eauto 7. }
  cbn [orb].
  destruct (any_match h1_patterns (strip text)); [by intros [= <-]|].
  destruct (_ || _); [by intros [= <-] | done].
Qed.

Lemma is_heading_sublevel_witness :
  exists c r, strip (py " b) Aims ") = c :: r /\
    (isdecimal c = true \/ c = "("%char \/
     (mem (Range "a" "z") c = true /\ head r = Some ")"%char)).
Proof. apply (is_heading_sublevel _ H2); [by vm_compute | done]. Defined.

(** * Further properties of the title and of the errors *)

(** An exception that leaves a loop was raised by one of its iterations. *)
Lemma for_each_raises {A St} (xs : list A) (body : A -> St -> result St) st e :
  for_each xs body st = Raise e -> exists x s, x ∈ xs /\ body x s = Raise e.
Proof.
  revert st. induction xs as [|y xs IH]; intros st; simpl; [done|].
  destruct (body y st) as [st1|e'] eqn:E; simpl.
  - intros H. destruct (IH _ H) as (x & s & Hx & Hb). exists x, s.
    split; [apply elem_of_cons; by right | done].
  - intros [= ->]. exists y, st. split; [apply elem_of_cons; by left | done].
Qed.

(** X6. The title is empty or the trimmed text of a span of the first
    two pages: it has 11 to 149 characters, is not all lower case and has
    no blank at either end. *)
Theorem extract_title_shape doc t :
  extract_title doc = Ok t ->
  t = [] \/
  exists page_num s,
    page_num < min 2 (page_count doc) /\ span_at doc page_num s /\
    t = strip (span_text s) /\ 10 < length t < 150 /\
    islower t = false /\ strip t = t.
Proof.
  intros H. destruct (title_candidates doc) as [cands|e] eqn:Ec;
    [|unfold extract_title in H; by rewrite Ec in H].
  rewrite (extract_title_first _ _ Ec) in H. injection H as <-.
  destruct (first_sorted cands) as [c|] eqn:Ef; [right | by left].
  apply first_sorted_min in Ef as [Hc _].
  rewrite (title_candidates_in_order _ _ Ec) in Hc.
  apply elem_of_candidates_in_order in Hc as (pn & s & Hpn & Hat & He & ->).
  exists pn, s. unfold eligible in He.
  rewrite !andb_true_iff, !Nat.ltb_lt, negb_true_iff in He.
  destruct He as [[? ?] ?]. unfold cand_text. simpl.
  repeat split; try done. apply strip_idem.
Qed.

Lemma extract_title_shape_witness :
  py "Annual Report 2024" = [] \/
  exists page_num s,
    page_num < min 2 (page_count report_doc) /\ span_at report_doc page_num s /\
    py "Annual Report 2024" = strip (span_text s) /\
    10 < length (py "Annual Report 2024") < 150 /\
    islower (py "Annual Report 2024") = false /\
    strip (py "Annual Report 2024") = py "Annual Report 2024".
Proof. apply (extract_title_shape report_doc). by vm_compute. Defined.

Lemma extract_title_raise_cases doc e :
  extract_title doc = Raise e ->
  e = KeyError "spans" \/
  exists page_num pg,
    page_num < 2 /\ doc !! page_num = Some pg /\ get_text_blocks pg = Raise e.
Proof.
  unfold extract_title. destruct (title_candidates doc) as [cands|e'] eqn:Ec; simpl.
  { by destruct (sort cands). }
  intros [= ->]. apply for_each_raises in Ec as (pn & s & Hpn & E).
  apply elem_of_seq in Hpn. unfold title_page, load_page in E.
  destruct (doc !! pn) as [pg|] eqn:Ed; simpl in E.
  2:{ apply lookup_ge_None in Ed. unfold page_count in Hpn. lia. }
  destruct (get_text_blocks pg) as [blocks|e'] eqn:Eg; simpl in E.
  2:{ injection E as ->. right. exists pn, pg. repeat split; [lia | done | done]. }
  left. apply for_each_raises in E as (b & s1 & _ & E).
  unfold title_block in E. destruct (block_lines b) as [lines|]; [|done].
  apply for_each_raises in E as (l & s2 & _ & E).
  unfold title_line in E. destruct (line_spans l) as [spans|]; simpl in E.
  - apply for_each_raises in E as (sp & s3 & _ & E).
    unfold title_span in E. cbv zeta in E. by destruct (_ && _).
  - by injection E as <-.
Qed.

(** X7. [extract_title] raises exactly on the documents where one of the
    first two pages does not give its text or where a line of a text
    block on these pages has no ["spans"]; the exception is that of the
    page, or KeyError for the missing key. *)
Theorem extract_title_raises doc :
  (title_readable doc = false <-> exists e, extract_title doc = Raise e) /\
  (forall e, extract_title doc = Raise e ->
     e = KeyError "spans" \/
     exists page_num pg,
       page_num < 2 /\ doc !! page_num = Some pg /\ get_text_blocks pg = Raise e).
Proof.
  split; [|apply extract_title_raise_cases].
  pose proof (extract_title_returns doc) as [H1 H2].
  destruct (title_readable doc); destruct (extract_title doc) as [t|e]; split;
    try done; try (intros; by eauto).
  - intros [e' ?]. done.
  - destruct H2 as [t ?]; done.
  - intros _. specialize (H1 (ex_intro _ t eq_refl)). done.
Qed.

Lemma extract_outline_raise_cases doc e :
  extract_outline doc = Raise e ->
  exists page_num pg, doc !! page_num = Some pg /\ get_text_blocks pg = Raise e.
Proof.
  unfold extract_outline.
  destruct (for_each _ _ _) as [st|e'] eqn:E; simpl; [done|]. intros [= ->].
  apply for_each_raises in E as (pn & s & Hpn & E).
  apply elem_of_seq in Hpn. unfold outline_page, load_page in E.
  destruct (doc !! pn) as [pg|] eqn:Ed; simpl in E.
  2:{ apply lookup_ge_None in Ed. unfold page_count in Hpn. lia. }
  destruct (get_text_blocks pg) as [blocks|e'] eqn:Eg; simpl in E.
  2:{ injection E as ->. by exists pn, pg. }
  apply for_each_raises in E as (b & s1 & _ & E). unfold outline_block in E.
  by apply for_each_raises in E as (l & s2 & _ & E).
Qed.

(** X8. [extract_outline] raises exactly on the documents where a page
    does not give its text, with the exception of that page: a block
    without ["lines"] and a line without ["spans"] are passed over. *)
Theorem extract_outline_raises doc :
  (outline_readable doc = false <-> exists e, extract_outline doc = Raise e) /\
  (forall e, extract_outline doc = Raise e ->
     exists page_num pg, doc !! page_num = Some pg /\ get_text_blocks pg = Raise e).
Proof.
  split; [|apply extract_outline_raise_cases].
  pose proof (extract_outline_returns doc) as [H1 H2].
  destruct (outline_readable doc); destruct (extract_outline doc) as [o|e]; split;
    try done; try (intros; by eauto).
  - intros [e' ?]. done.
  - destruct H2 as [t ?]; done.
  - intros _. specialize (H1 (ex_intro _ o eq_refl)). done.
Qed.

(** X9. When every page gives its text but a line of the first two pages
    has no ["spans"], [extract_title] raises KeyError although
    [extract_outline] returns an outline: the result holds the stem of
    the file name and an empty outline. *)
Theorem extract_structure_spanless fitz_open pdf_path doc :
  fitz_open pdf_path = Ok doc ->
  outline_readable doc = true -> title_readable doc = false ->
  extract_title doc = Raise (KeyError "spans") /\
  extract_outline doc = Ok (build_outline (lines_in_order doc)).1 /\
  extract_structure fitz_open pdf_path =
    {| title := path_stem pdf_path; outline := [] |}.
Proof.
  intros Ed Ho Ht.
  assert (extract_title doc = Raise (KeyError "spans")) as Et.
  { destruct (extract_title doc) as [t|e] eqn:E.
    - pose proof (proj1 (extract_title_returns doc) (ex_intro _ t E)). congruence.
    - destruct (extract_title_raise_cases _ _ E) as [->|(pn & pg & _ & Epg & Eg)]; [done|].
      pose proof (forallb_elem_of _ _ pg Ho (list_elem_of_lookup_2 _ _ _ Epg)) as H.
      simpl in H. by rewrite Eg in H. }
  split; [done|]. split; [by apply extract_outline_total|].
  unfold extract_structure, try_extract. rewrite Ed. simpl. by rewrite Et.
Qed.

Lemma extract_structure_spanless_witness :
  extract_title spanless_heading_doc = Raise (KeyError "spans") /\
  extract_outline spanless_heading_doc =
    Ok (build_outline (lines_in_order spanless_heading_doc)).1 /\
  extract_structure (fun _ => Ok spanless_heading_doc) broken_pdf =
    {| title := path_stem broken_pdf; outline := [] |}.
Proof.
  apply (extract_structure_spanless (fun _ => Ok spanless_heading_doc) broken_pdf);
    reflexivity.
Defined.

(** * Further properties of the outline *)

Lemma build_outline_entries ls e :
  e ∈ (build_outline ls).1 -> exists p, p ∈ ls /\ entry_of p = Some e.
Proof.
  intros He. destruct (build_outline_inv ls) as [_ _ Hord _].
  apply (elem_of_sublist _ _ _ He) in Hord. by apply list_elem_of_omap in Hord.
Qed.

Lemma lines_in_order_line doc p :
  p ∈ lines_in_order doc ->
  p.1 < page_count doc /\ exists l, line_at doc p.1 l /\ p.2 = full_line_of l.
Proof.
  unfold lines_in_order. intros (pn & Hpn & Hp)%elem_of_flat_map.
  apply elem_of_seq in Hpn. pose proof (page_texts_fst _ _ _ Hp) as E.
  destruct p as [q fl]. simpl in *. subst q. split; [lia|].
  by apply lines_in_order_page.
Qed.

(** X10. Every entry of the outline comes from a line of the document:
    its page is the page of the line (counted from 1, at most the number
    of pages), its text is the joined text of the line, not empty and
    without blanks at its ends, and its level is what the classifier
    answers on this text. *)
Theorem extract_outline_entries doc outline :
  extract_outline doc = Ok outline ->
  forall e, e ∈ outline ->
    exists page_num l,
      page_num < page_count doc /\ line_at doc page_num l /\
      entry_page e = page_num + 1 /\ entry_text e = full_line_of l /\
      entry_text e <> [] /\ strip (entry_text e) = entry_text e /\
      is_heading (entry_text e) = Some (entry_level e).
Proof.
  intros H e He. rewrite (extract_outline_folds _ _ H) in He.
  apply build_outline_entries in He as (p & Hp & Ee).
  apply lines_in_order_line in Hp as (Hlt & l & Hat & Et).
  exists p.1, l. unfold entry_of in Ee.
  destruct (is_heading p.2) as [lv|] eqn:Eh; [|done]. injection Ee as <-. simpl.
  repeat split; try done.
  - intros E0. rewrite E0, is_heading_empty in Eh. done.
  - rewrite Et. unfold full_line_of. apply strip_idem.
Qed.

Lemma extract_outline_entries_witness :
  exists page_num l,
    page_num < page_count conclusion_doc /\ line_at conclusion_doc page_num l /\
    9 = page_num + 1 /\ py "CONCLUSION" = full_line_of l /\
    py "CONCLUSION" <> [] /\ strip (py "CONCLUSION") = py "CONCLUSION" /\
    is_heading (py "CONCLUSION") = Some H1.
Proof.
  apply (extract_outline_entries conclusion_doc
           [ {| entry_level := H1; entry_text := py "CONCLUSION"; entry_page := 4 |};
             {| entry_level := H1; entry_text := py "CONCLUSION"; entry_page := 9 |} ]
           ltac:(by vm_compute)
           {| entry_level := H1; entry_text := py "CONCLUSION"; entry_page := 9 |}).
  apply elem_of_cons. right. apply elem_of_cons. by left.
Defined.

Lemma outline_fold_mono ls st e :
  e ∈ st.1 -> e ∈ (foldl outline_step st ls).1.
Proof.
  revert st. induction ls as [|p ls IH]; intros st He; simpl; [done|].
  apply IH. unfold outline_step. rewrite outline_text_cases.
  destruct (is_heading p.2); [|done]. case_bool_decide; [|done].
  simpl. apply elem_of_app. by left.
Qed.

(** X11. The first heading line of a page with a given lower-cased text
    is the one the outline keeps, with its own spelling and level: later
    lines of the page with the same lower-cased text do not replace it. *)
Theorem extract_outline_first_wins doc outline l1 page_num fl l2 lv :
  extract_outline doc = Ok outline ->
  lines_in_order doc = l1 ++ (page_num, fl) :: l2 ->
  is_heading fl = Some lv ->
  (forall fl', (page_num, fl') ∈ l1 -> is_heading fl' <> None ->
               lower fl' <> lower fl) ->
  {| entry_level := lv; entry_text := fl; entry_page := page_num + 1 |} ∈ outline.
Proof.
  intros H El Eh Hfirst. rewrite (extract_outline_folds _ _ H), El.
  unfold build_outline. rewrite foldl_app. simpl. apply outline_fold_mono.
  fold (build_outline l1). unfold outline_step. simpl.
  rewrite outline_text_cases, Eh.
  destruct (build_outline_inv l1) as [_ Hseen _ _].
  rewrite bool_decide_eq_true_2.
  - simpl. apply elem_of_app. right. by apply list_elem_of_singleton.
  - intros Hk. apply Hseen in Hk.
    apply list_elem_of_fmap in Hk as (e & Ek & He).
    apply build_outline_entries in He as ([pn' fl'] & Hp & Ee).
    unfold entry_of in Ee. simpl in Ee.
    destruct (is_heading fl') as [lv'|] eqn:Eh'; [|done]. injection Ee as <-.
    unfold entry_key in Ek. simpl in Ek. injection Ek as Et Epn.
    assert (pn' = page_num) as -> by lia.
    apply (Hfirst fl' Hp); [congruence | done].
Qed.

Lemma extract_outline_first_wins_witness :
  {| entry_level := H1; entry_text := py "Conclusion"; entry_page := 0 + 1 |}
    ∈ [ {| entry_level := H1; entry_text := py "Conclusion"; entry_page := 1 |} ].
Proof.
  apply (extract_outline_first_wins mixed_case_doc _ [] 0 (py "Conclusion")
           [(0, py "CONCLUSION")] H1); try by vm_compute.
  intros fl' Hin. by apply elem_of_nil in Hin.
Defined.

(** ** The outline of two documents put end to end *)

Lemma flat_map_ext_elem {A B} (f g : A -> list B) (xs : list A) :
  (forall x, x ∈ xs -> f x = g x) -> flat_map f xs = flat_map g xs.
Proof.
  induction xs as [|x xs IH]; intros H; simpl; [done|].
  rewrite (H x) by (apply elem_of_cons; by left).
  rewrite IH; [done|]. intros y Hy. apply H. apply elem_of_cons. by right.
Qed.

Lemma fmap_flat_map {A B C} (h : B -> C) (g : A -> list B) (xs : list A) :
  h <$> flat_map g xs = flat_map (fun x => h <$> g x) xs.
Proof. induction xs as [|x xs IH]; csimpl; [done|]. by rewrite fmap_app, IH. Qed.

Lemma flat_map_fmap {A B C} (h : A -> B) (g : B -> list C) (xs : list A) :
  flat_map g (h <$> xs) = flat_map (fun x => g (h x)) xs.
Proof. induction xs as [|x xs IH]; csimpl; [done|]. by rewrite IH. Qed.

Lemma page_texts_app_l (d1 d2 : document) pn :
  pn < length d1 -> page_texts (d1 ++ d2) pn = page_texts d1 pn.
Proof. intros H. unfold page_texts. by rewrite lookup_app_l. Qed.

Lemma page_texts_app_r (d1 d2 : document) i :
  page_texts (d1 ++ d2) (length d1 + i) = shift_line (length d1) <$> page_texts d2 i.
Proof.
  unfold page_texts. rewrite lookup_app_r by lia.
  replace (length d1 + i - length d1) with i by lia.
  destruct (d2 !! i) as [[[blocks|e]]|]; try done.
  rewrite fmap_flat_map. apply flat_map_ext_elem. intros b _.
  unfold block_texts. rewrite fmap_flat_map. apply flat_map_ext_elem. intros l _.
  unfold line_texts, shift_line. simpl. do 2 f_equal. lia.
Qed.

Lemma lines_in_order_app (d1 d2 : document) :
  lines_in_order (d1 ++ d2) =
  lines_in_order d1 ++ (shift_line (page_count d1) <$> lines_in_order d2).
Proof.
  unfold lines_in_order, page_count. rewrite length_app, seq_app, flat_map_app.
  f_equal.
  - apply flat_map_ext_elem. intros pn Hpn. apply elem_of_seq in Hpn.
    apply page_texts_app_l. lia.
  - simpl. rewrite <- (Nat.add_0_r (length d1)) at 1.
    rewrite <- fmap_add_seq, flat_map_fmap, fmap_flat_map.
    apply flat_map_ext_elem. intros i _. apply page_texts_app_r.
Qed.

(** Reading the lines of the second document after those of the first:
    the keys seen in the first are of earlier pages and change nothing. *)
Lemma outline_fold_shift n (o0 : list entry) ls (st a : outline_state) :
  st.1 = o0 ++ (shift_entry n <$> a.1) ->
  (forall txt q, (txt, q + n) ∈ st.2 <-> (txt, q) ∈ a.2) ->
  (foldl outline_step st (shift_line n <$> ls)).1 =
  o0 ++ (shift_entry n <$> (foldl outline_step a ls).1).
Proof.
  revert st a. induction ls as [|[pn fl] ls IH]; intros st a Ho Hs; simpl; [done|].
  apply IH.
  - unfold outline_step, shift_line. simpl. rewrite !outline_text_cases.
    destruct (is_heading fl) as [lv|]; [|done].
    rewrite (bool_decide_ext _ ((lower fl, pn) ∉ a.2)) by (by rewrite Hs).
    case_bool_decide; [|done]. simpl.
    rewrite Ho, fmap_app, <- app_assoc. do 2 f_equal.
    unfold shift_entry. simpl. do 2 f_equal. lia.
  - intros txt q. unfold outline_step, shift_line. simpl. rewrite !outline_text_cases.
    destruct (is_heading fl) as [lv|]; [|done].
    rewrite (bool_decide_ext _ ((lower fl, pn) ∉ a.2)) by (by rewrite Hs).
    case_bool_decide; [|done]. simpl.
    rewrite !elem_of_union, !elem_of_singleton, Hs. split.
    + intros [[= -> E]|?]; [left | by right]. f_equal. lia.
    + intros [[= -> ->]|?]; [by left | by right].
Qed.

(** X12. The outline of two documents put end to end is the outline of
    the first followed by the outline of the second with its pages
    renumbered: no line of a page suppresses a line of another page. *)
Theorem extract_outline_app d1 d2 o1 o2 :
  extract_outline d1 = Ok o1 -> extract_outline d2 = Ok o2 ->
  extract_outline (d1 ++ d2) = Ok (o1 ++ (shift_entry (page_count d1) <$> o2)).
Proof.
  intros E1 E2.
  pose proof (proj1 (extract_outline_returns d1) (ex_intro _ o1 E1)) as R1.
  pose proof (proj1 (extract_outline_returns d2) (ex_intro _ o2 E2)) as R2.
  rewrite extract_outline_total
    by (unfold outline_readable in *; by rewrite forallb_app, R1, R2).
  f_equal. rewrite (extract_outline_folds _ _ E1), (extract_outline_folds _ _ E2).
  rewrite lines_in_order_app. unfold build_outline at 1. rewrite foldl_app.
  fold (build_outline (lines_in_order d1)).
  apply outline_fold_shift; [simpl; by rewrite app_nil_r|].
  intros txt q. split; [|by intros H%elem_of_empty].
  intros Hk. exfalso.
  destruct (build_outline_inv (lines_in_order d1)) as [_ Hseen _ _].
  apply Hseen, list_elem_of_fmap in Hk as (e & Ek & He).
  apply build_outline_entries in He as (p & Hp & Ee).
  apply lines_in_order_line in Hp as [Hlt _].
  apply entry_of_page in Ee. unfold entry_key in Ek. injection Ek as _ Ek. lia.
Qed.

Lemma extract_outline_app_witness :
  extract_outline (ordered_doc ++ mixed_case_doc) =
    Ok ([ {| entry_level := H2; entry_text := py "2.1 Scope"; entry_page := 1 |};
          {| entry_level := H1; entry_text := py "INTRODUCTION"; entry_page := 1 |};
          {| entry_level := H3; entry_text := py "(3) Details"; entry_page := 3 |};
          {| entry_level := H2; entry_text := py "1.1 Aims"; entry_page := 3 |} ] ++
        (shift_entry (page_count ordered_doc) <$>
           [ {| entry_level := H1; entry_text := py "Conclusion"; entry_page := 1 |} ])).
Proof. apply extract_outline_app; by vm_compute. Defined.

(** * Properties of the batch driver *)

Lemma rfind_dot_app (s t : str) :
  rfind_dot (s ++ t) =
    match rfind_dot t with
    | Some i => Some (length s + i)
    | None => rfind_dot s
    end.
Proof.
  induction s as [|c s IH]; simpl.
  - by destruct (rfind_dot t).
  - rewrite IH. by destruct (rfind_dot t).
Qed.

Lemma stem_of_pdf_name f base :
  base <> [] -> path_name f = base ++ py ".pdf" -> path_stem f = base.
Proof.
  intros Hb En. unfold path_stem. rewrite En, rfind_dot_app. simpl.
  rewrite length_app. simpl.
  assert (0 < length base) by (destruct base; [done | simpl; lia]).
  replace ((0 <? length base + 0) && (length base + 0 <? length base + 4 - 1))
    with true.
  - rewrite Nat.add_0_r. by rewrite take_app_length.
  - symmetry. apply andb_true_iff. split; apply Nat.ltb_lt; lia.
Qed.

(** X13. The stem of a file named [<base>.pdf] with a non-empty base is
    the base, whatever dots the base has; its output is [<base>.json],
    and no file with another such name has the same output. *)
Theorem path_stem_pdf f base :
  base <> [] -> path_name f = base ++ py ".pdf" ->
  path_stem f = base /\ output_name f = base ++ py ".json" /\
  forall g, pdf_named g -> output_name g = output_name f ->
            path_name g = path_name f.
Proof.
  intros Hb En. pose proof (stem_of_pdf_name f base Hb En) as Es.
  split; [done|]. split; [unfold output_name; by rewrite Es|].
  intros g (bg & Hbg & Eg) E. unfold output_name in E.
  rewrite Es, (stem_of_pdf_name g bg Hbg Eg) in E.
  apply app_inv_tail in E. by rewrite Eg, En, E.
Qed.

Lemma path_stem_pdf_witness :
  path_stem report_pdf = py "annual.report" /\
  output_name report_pdf = py "annual.report" ++ py ".json" /\
  forall g, pdf_named g -> output_name g = output_name report_pdf ->
            path_name g = path_name report_pdf.
Proof. apply path_stem_pdf; [done | reflexivity]. Defined.

(** The files ".pdf" and ".pdf.pdf" are both matched by [*.pdf] and are
    written to the same output. *)
Example output_name_clash :
  output_name {| path_dir := py "/app/input"; path_name := py ".pdf" |} =
  output_name {| path_dir := py "/app/input"; path_name := py ".pdf.pdf" |}.
Proof. by vm_compute. Qed.

Section BatchFacts.

Variable fitz_open : Path -> result document.
Variable write_raises : nat -> option io_error.

(** A run of the loop in which no write raises. *)
Lemma process_files_ok fs i st :
  (forall j, j < length fs -> write_raises (i + j) = None) ->
  exists st',
    process_files fitz_open write_raises i st fs = (st', None) /\
    (NoDup (output_name <$> fs) ->
     forall f, f ∈ fs ->
       batch_out st' !! output_name f = Some (Dumped (extract_structure fitz_open f))) /\
    (forall k, (forall f, f ∈ fs -> output_name f <> k) ->
       batch_out st' !! k = batch_out st !! k).
Proof.
  revert i st. induction fs as [|g fs IH]; intros i st Hw.
  - exists st. split; [done|]. split; [|done]. intros _ f Hf. by apply elem_of_nil in Hf.
  - assert (write_raises i = None) as Hi.
    { rewrite <- (Nat.add_0_r i). apply Hw. simpl. lia. }
    cbn [process_files]. unfold process_file. cbv zeta. rewrite Hi.
    set (st1 := {| batch_log := _; batch_out := _ |}).
    destruct (IH (S i) st1) as (st' & E & Hin & Hout).
    { intros j Hj. replace (S i + j) with (i + S j) by lia. apply Hw. simpl. lia. }
    exists st'. split; [done|]. split.
    + intros Hnd f Hf. rewrite fmap_cons in Hnd. apply NoDup_cons in Hnd as [Hg Hnd].
      apply elem_of_cons in Hf as [->|Hf]; [|by apply Hin].
      rewrite Hout; [simpl; apply lookup_insert_eq|].
      intros f Hf E'. apply Hg. rewrite <- E'. by apply list_elem_of_fmap_2.
    + intros k Hk. rewrite Hout by (intros f Hf; apply Hk, elem_of_cons; by right).
      simpl. apply lookup_insert_ne. apply Hk, elem_of_cons. by left.
Qed.

(** A run of the loop that the write of [f] ends. *)
Lemma process_files_abort fs f rest e i st st1 :
  process_files fitz_open write_raises i st fs = (st1, None) ->
  write_raises (i + length fs) = Some e ->
  exists st',
    process_files fitz_open write_raises i st (fs ++ f :: rest) = (st', Some e) /\
    batch_out st' = <[output_name f := Unknown]> (batch_out st1).
Proof.
  revert i st. induction fs as [|g fs IH]; intros i st E Hw; simpl in *.
  - injection E as <-. unfold process_file. cbv zeta. rewrite Nat.add_0_r in Hw.
    rewrite Hw. eauto.
  - destruct (process_file fitz_open write_raises i st g) as [st2 [e'|]]; [done|].
    apply IH; [done|]. by replace (S i + length fs) with (i + S (length fs)) by lia.
Qed.

Lemma output_names_distinct fs :
  (forall f, f ∈ fs -> pdf_named f) -> NoDup (path_name <$> fs) ->
  NoDup (output_name <$> fs).
Proof.
  induction fs as [|g fs IH]; intros Hpdf Hnd; [constructor|].
  rewrite fmap_cons in *. apply NoDup_cons in Hnd as [Hg Hnd].
  apply NoDup_cons. split.
  - intros (f & E & Hf)%list_elem_of_fmap. apply Hg.
    apply list_elem_of_fmap. exists f. split; [|done].
    destruct (Hpdf g) as (bg & Hbg & Eg); [apply elem_of_cons; by left|].
    destruct (Hpdf f) as (bf & Hbf & Ef); [apply elem_of_cons; by right|].
    unfold output_name in E.
    rewrite (stem_of_pdf_name g bg Hbg Eg), (stem_of_pdf_name f bf Hbf Ef) in E.
    apply app_inv_tail in E. by rewrite Eg, Ef, E.
  - apply IH; [|done]. intros f Hf. apply Hpdf, elem_of_cons. by right.
Qed.

(** When [mkdir] raises, nothing is read, logged or written. *)
Lemma process_pdfs_mkdir_fails e pdf_files out :
  process_pdfs fitz_open (Some e) write_raises pdf_files out =
    ({| batch_log := []; batch_out := out |}, Some e).
Proof. done. Qed.

(** X14. The files have distinct names of the form [<base>.pdf] with a
    non-empty base, and [mkdir] succeeds. If no write raises,
    [process_pdfs] returns and leaves, for each file, [<base>.json] with
    the result of [extract_structure] on that file, readable or not, and
    the other files of the directory as they were. If the write of a
    file is the first that raises, its exception leaves [process_pdfs]:
    the files before it have their outputs, the files after it get none,
    and nothing is known of the output of the file itself. *)
Theorem process_pdfs_outputs pdf_files out :
  (forall f, f ∈ pdf_files -> pdf_named f) ->
  NoDup (path_name <$> pdf_files) ->
  ((forall i, i < length pdf_files -> write_raises i = None) ->
   (process_pdfs fitz_open None write_raises pdf_files out).2 = None /\
   (forall f base,
      f ∈ pdf_files -> base <> [] -> path_name f = base ++ py ".pdf" ->
      batch_out (process_pdfs fitz_open None write_raises pdf_files out).1
        !! (base ++ py ".json") = Some (Dumped (extract_structure fitz_open f))) /\
   (forall k, (forall f, f ∈ pdf_files -> output_name f <> k) ->
      batch_out (process_pdfs fitz_open None write_raises pdf_files out).1 !! k
        = out !! k)) /\
  (forall before f rest e,
     pdf_files = before ++ f :: rest ->
     (forall i, i < length before -> write_raises i = None) ->
     write_raises (length before) = Some e ->
     (process_pdfs fitz_open None write_raises pdf_files out).2 = Some e /\
     (forall g, g ∈ before ->
        batch_out (process_pdfs fitz_open None write_raises pdf_files out).1
          !! output_name g = Some (Dumped (extract_structure fitz_open g))) /\
     batch_out (process_pdfs fitz_open None write_raises pdf_files out).1
       !! output_name f = Some Unknown /\
     (forall g, g ∈ rest ->
        batch_out (process_pdfs fitz_open None write_raises pdf_files out).1
          !! output_name g = out !! output_name g)).
Proof.
  intros Hpdf Hnd. pose proof (output_names_distinct _ Hpdf Hnd) as Hon. split.
  - intros Hw.
    destruct (process_files_ok pdf_files 0 {| batch_log := []; batch_out := out |})
      as (st' & E & Hin & Hout); [done|].
    destruct pdf_files as [|g fs].
    { simpl. split; [done|]. split; [|done]. intros f base Hf. by apply elem_of_nil in Hf. }
    unfold process_pdfs. rewrite E. simpl. split; [done|]. split; [|done].
    intros f base Hf Hb En. rewrite <- (stem_of_pdf_name f base Hb En).
    by apply Hin.
  - intros before f rest e -> Hw He.
    destruct (process_files_ok before 0 {| batch_log := []; batch_out := out |})
      as (st1 & E1 & Hin & Hout); [done|].
    destruct (process_files_abort before f rest e 0 _ st1 E1 He) as (st' & E & Eo).
    assert (process_pdfs fitz_open None write_raises (before ++ f :: rest) out
            = (st', Some e)) as ->.
    { unfold process_pdfs. by destruct before. }
    simpl. rewrite Eo. rewrite fmap_app, fmap_cons in Hon.
    apply NoDup_app in Hon as (Hb & Hdisj & Hfr).
    apply NoDup_cons in Hfr as [Hf Hr].
    split; [done|]. split; [|split].
    + intros g Hg. rewrite lookup_insert_ne; [by apply Hin|].
      intros E'. apply (Hdisj (output_name g)); [by apply list_elem_of_fmap_2|].
      rewrite <- E'. apply elem_of_cons. by left.
    + apply lookup_insert_eq.
    + intros g Hg. rewrite lookup_insert_ne.
      * apply Hout. intros g' Hg' E'. apply (Hdisj (output_name g'));
          [by apply list_elem_of_fmap_2|].
        rewrite E'. apply elem_of_cons. right. by apply list_elem_of_fmap_2.
      * intros E'. apply Hf. rewrite E'. by apply list_elem_of_fmap_2.
Qed.

End BatchFacts.

Lemma process_pdfs_outputs_witness :
  ((process_pdfs open_report None (fun _ => None) [broken_pdf; report_pdf] ∅).2 = None /\
   batch_out (process_pdfs open_report None (fun _ => None) [broken_pdf; report_pdf] ∅).1
     !! py "broken.json" = Some (Dumped {| title := py "broken"; outline := [] |}) /\
   batch_out (process_pdfs open_report None (fun _ => None) [broken_pdf; report_pdf] ∅).1
     !! py "annual.report.json"
     = Some (Dumped {| title := py "Annual Report 2024"; outline := [] |})) /\
  ((process_pdfs open_report None second_write_fails
      [broken_pdf; report_pdf; notes_pdf] ∅).2
     = Some (OSError "No space left on device") /\
   batch_out (process_pdfs open_report None second_write_fails
                [broken_pdf; report_pdf; notes_pdf] ∅).1 !! py "notes.json" = None).
Proof.
  assert (forall fs : list Path,
            fs = [broken_pdf; report_pdf; notes_pdf] \/ fs = [broken_pdf; report_pdf] ->
            (forall f, f ∈ fs -> pdf_named f) /\ NoDup (path_name <$> fs)) as Hfiles.
  { intros fs Hfs. split.
    - intros f Hf.
      assert (f = broken_pdf \/ f = report_pdf \/ f = notes_pdf) as [-> | [-> | ->]].
      { destruct Hfs as [-> | ->]; repeat (apply elem_of_cons in Hf as [->|Hf]);
          auto; by apply elem_of_nil in Hf. }
      + by exists (py "broken").
      + by exists (py "annual.report").
      + by exists (py "notes").
    - destruct Hfs as [-> | ->]; apply (bool_decide_unpack _); by vm_compute. }
  split.
  - destruct (Hfiles [broken_pdf; report_pdf]) as [Hp Hn]; [by right|].
    destruct (process_pdfs_outputs open_report (fun _ => None)
                [broken_pdf; report_pdf] ∅ Hp Hn) as [Hall _].
    destruct Hall as (Hend & H & _); [done|].
    split; [exact Hend|]. split.
    + apply (H broken_pdf (py "broken")); [apply elem_of_cons; by left | done | done].
    + apply (H report_pdf (py "annual.report"));
        [apply elem_of_cons; right; apply elem_of_cons; by left | done | done].
  - destruct (Hfiles [broken_pdf; report_pdf; notes_pdf]) as [Hp Hn]; [by left|].
    destruct (process_pdfs_outputs open_report second_write_fails
                [broken_pdf; report_pdf; notes_pdf] ∅ Hp Hn) as [_ H].
    destruct (H [broken_pdf] report_pdf [notes_pdf] (OSError "No space left on device"))
      as (Hend & _ & _ & Hrest); [done | | done |].
    { intros i Hi. simpl in Hi. by replace i with 0 by lia. }
    split; [exact Hend|]. apply (Hrest notes_pdf). apply elem_of_cons. by left.
Defined.
